(** * Financial crises pipeline: features, crisis labelling, regime summaries

    A shallow embedding of [src/features.py], [src/crisis_windows.py] and
    [src/analysis.py].  The pandas objects the code manipulates are modelled
    as follows.

    - A float64 cell is [NaN], an infinity or a finite real.  Arithmetic on
      finite values is exact: rounding, overflow and the sign of zero are
      outside the model.  Only [NaN] is a missing value ([isna]).
    - A column is a list of cells; a [DataFrame] is an index of timestamps
      ([None] is NaT) and an ordered list of named columns.
    - Frames and dictionaries are objects in a heap, referred to by address,
      so that copying and in-place assignment ([df[c] = v], [df.loc[m, c] = v],
      [d[k] = v]) are distinguished. *)

From Stdlib Require Import String Ascii ZArith Lia Reals Lra Bool Arith List.
Import ListNotations.

Set Implicit Arguments.

(* ================================================================== *)
(** ** float64 cells *)

Inductive float64 : Type :=
| NaN
| NInf
| PInf
| Fin (x : R).

Definition isna (f : float64) : bool :=
  match f with NaN => true | _ => false end.

Local Open Scope R_scope.

(** [np.log]: the logarithm of zero is [-inf], of a negative number [nan]
    (numpy warns, it does not raise). *)
Definition np_log (f : float64) : float64 :=
  match f with
  | NaN => NaN
  | NInf => NaN
  | PInf => PInf
  | Fin x => if Rlt_dec 0 x then Fin (ln x)
             else if Req_dec_T x 0 then NInf else NaN
  end.

Definition fneg (a : float64) : float64 :=
  match a with
  | NaN => NaN
  | NInf => PInf
  | PInf => NInf
  | Fin x => Fin (- x)
  end.

Definition fadd (a b : float64) : float64 :=
  match a, b with
  | NaN, _ | _, NaN => NaN
  | PInf, NInf | NInf, PInf => NaN
  | PInf, _ | _, PInf => PInf
  | NInf, _ | _, NInf => NInf
  | Fin x, Fin y => Fin (x + y)
  end.

Definition fsub (a b : float64) : float64 := fadd a (fneg b).

(** Sign of a finite real, as the three cases float division looks at. *)
Definition fin_sign (x : R) : comparison :=
  if Rlt_dec 0 x then Gt else if Rlt_dec x 0 then Lt else Eq.

Definition fmul (a b : float64) : float64 :=
  match a, b with
  | NaN, _ | _, NaN => NaN
  | Fin x, Fin y => Fin (x * y)
  | Fin x, PInf | PInf, Fin x =>
      match fin_sign x with Gt => PInf | Lt => NInf | Eq => NaN end
  | Fin x, NInf | NInf, Fin x =>
      match fin_sign x with Gt => NInf | Lt => PInf | Eq => NaN end
  | PInf, PInf | NInf, NInf => PInf
  | PInf, NInf | NInf, PInf => NaN
  end.

Definition fdiv (a b : float64) : float64 :=
  match a, b with
  | NaN, _ | _, NaN => NaN
  | Fin x, Fin y =>
      match fin_sign y with
      | Eq => match fin_sign x with Gt => PInf | Lt => NInf | Eq => NaN end
      | _ => Fin (x / y)
      end
  | Fin _, (PInf | NInf) => Fin 0
  | PInf, Fin y => match fin_sign y with Lt => NInf | _ => PInf end
  | NInf, Fin y => match fin_sign y with Lt => PInf | _ => NInf end
  | (PInf | NInf), (PInf | NInf) => NaN
  end.

(** [np.maximum] and [np.minimum]: a NaN operand gives NaN. *)
Definition fmax (a b : float64) : float64 :=
  match a, b with
  | NaN, _ | _, NaN => NaN
  | PInf, _ | _, PInf => PInf
  | NInf, c | c, NInf => c
  | Fin x, Fin y => if Rle_dec x y then Fin y else Fin x
  end.

Definition fmin (a b : float64) : float64 :=
  match a, b with
  | NaN, _ | _, NaN => NaN
  | NInf, _ | _, NInf => NInf
  | PInf, c | c, PInf => c
  | Fin x, Fin y => if Rle_dec x y then Fin x else Fin y
  end.

Definition fsqrt (a : float64) : float64 :=
  match a with
  | NaN | NInf => NaN
  | PInf => PInf
  | Fin x => if Rlt_dec x 0 then NaN else Fin (sqrt x)
  end.

(** The order of float64 comparison; nothing compares with NaN. *)
Definition fle (a b : float64) : Prop :=
  match a, b with
  | NaN, _ | _, NaN => False
  | NInf, _ => True
  | _, PInf => True
  | Fin x, Fin y => x <= y
  | _, _ => False
  end.

(* ================================================================== *)
(** ** Column transforms used by [compute_features] *)

(** [Series.diff()]: the first row has no predecessor. *)
Fixpoint diff_from (prev : float64) (xs : list float64) : list float64 :=
  match xs with
  | [] => []
  | x :: t => fsub x prev :: diff_from x t
  end.

Definition diff (xs : list float64) : list float64 :=
  match xs with
  | [] => []
  | x :: t => NaN :: diff_from x t
  end.

(** [Series.cummax()] with the default [skipna=True], as pandas computes it:
    NaN cells are replaced by [-inf], [np.maximum.accumulate] runs over the
    result, and NaN is written back at the masked positions. *)
Definition fill_na (d : float64) (xs : list float64) : list float64 :=
  map (fun x => if isna x then d else x) xs.

Fixpoint accumulate (op : float64 -> float64 -> float64) (acc : float64)
    (xs : list float64) : list float64 :=
  match xs with
  | [] => []
  | x :: t => op acc x :: accumulate op (op acc x) t
  end.

Definition maximum_accumulate (xs : list float64) : list float64 :=
  match xs with
  | [] => []
  | x :: t => x :: accumulate fmax x t
  end.

Fixpoint restore_na (orig res : list float64) : list float64 :=
  match orig, res with
  | o :: orig', r :: res' => (if isna o then NaN else r) :: restore_na orig' res'
  | _, _ => []
  end.

Definition cummax (xs : list float64) : list float64 :=
  restore_na xs (maximum_accumulate (fill_na NInf xs)).

(** Element-wise arithmetic of two columns of one frame. *)
Fixpoint map2 {A B C} (f : A -> B -> C) (xs : list A) (ys : list B) : list C :=
  match xs, ys with
  | x :: xs', y :: ys' => f x y :: map2 f xs' ys'
  | _, _ => []
  end.

(** Sample statistics of the observations of one window. *)
Definition Rsum (xs : list R) : R := fold_right Rplus 0 xs.

Definition Rmean (xs : list R) : R := Rsum xs / INR (length xs).

Definition sample_var (xs : list R) : R :=
  Rsum (map (fun x => (x - Rmean xs) * (x - Rmean xs)) xs)
  / (INR (length xs) - 1).

Definition sample_std (xs : list R) : R := sqrt (sample_var xs).

(** [Series.rolling(window=w).std()].  Infinite values are turned into NaN
    before the window kernel runs; [min_periods] defaults to the window
    size, and the variance needs more observations than [ddof = 1]. *)
Definition prep_values (xs : list float64) : list (option R) :=
  map (fun f => match f with Fin x => Some x | _ => None end) xs.

Definition window_at {A} (w i : nat) (xs : list A) : list A :=
  firstn (i + 1 - (i + 1 - w)) (skipn (i + 1 - w) xs).

Fixpoint observed (win : list (option R)) : list R :=
  match win with
  | [] => []
  | Some x :: t => x :: observed t
  | None :: t => observed t
  end.

Definition roll_std_at (w : nat) (xs : list float64) (i : nat) : float64 :=
  let obs := observed (window_at w i (prep_values xs)) in
  if (w <=? length obs)%nat && (1 <? length obs)%nat
  then Fin (sample_std obs) else NaN.

Definition rolling_std (w : nat) (xs : list float64) : list float64 :=
  map (roll_std_at w xs) (seq 0 (length xs)).

(* ================================================================== *)
(** ** Timestamps and calendar-month offsets *)

Local Open Scope Z_scope.

(** A [pd.Timestamp]: a calendar date and the nanoseconds elapsed in the
    day.  Timestamps compare lexicographically. *)
Record Timestamp : Type := mkTs {
  ts_year : Z;
  ts_month : Z;
  ts_day : Z;
  ts_nanos : Z
}.

Definition ts_compare (a b : Timestamp) : comparison :=
  match ts_year a ?= ts_year b with
  | Eq => match ts_month a ?= ts_month b with
          | Eq => match ts_day a ?= ts_day b with
                  | Eq => ts_nanos a ?= ts_nanos b
                  | c => c
                  end
          | c => c
          end
  | c => c
  end.

Definition ts_le (a b : Timestamp) : bool :=
  match ts_compare a b with Gt => false | _ => true end.

Definition ts_lt (a b : Timestamp) : bool :=
  match ts_compare a b with Lt => true | _ => false end.

Definition is_leap (y : Z) : bool :=
  ((y mod 4 =? 0) && negb (y mod 100 =? 0)) || (y mod 400 =? 0).

Definition days_in_month (y m : Z) : Z :=
  if m =? 2 then (if is_leap y then 29 else 28)
  else if (m =? 4) || (m =? 6) || (m =? 9) || (m =? 11) then 30
  else 31.

(** The calendar arithmetic of [t + pd.DateOffset(months=n)]: the month
    moves by [n], the day is clamped to the length of the target month,
    the time of day is kept.  Whether the result is a [pd.Timestamp] at
    all is decided by [date_offset] below. *)
Definition add_months (t : Timestamp) (n : Z) : Timestamp :=
  let total := ts_year t * 12 + (ts_month t - 1) + n in
  let y := total / 12 in
  let m := total mod 12 + 1 in
  mkTs y m (Z.min (ts_day t) (days_in_month y m)) (ts_nanos t).

Definition date (y m d : Z) : Timestamp := mkTs y m d 0.

(** A [pd.Timestamp] counts nanoseconds from 1970 in 64 bits:
    [pd.Timestamp.min] is 1677-09-21 00:12:43.145224193 and
    [pd.Timestamp.max] is 2262-04-11 23:47:16.854775807. *)
Definition ts_min : Timestamp := mkTs 1677 9 21 763145224193.
Definition ts_max : Timestamp := mkTs 2262 4 11 85636854775807.

Definition in_bounds (t : Timestamp) : bool := ts_le ts_min t && ts_le t ts_max.

(** An offset of [n] months is representable from [t]: a timestamp that
    pandas holds is moved to one that pandas holds. *)
Definition offset_ok (t : Timestamp) (n : Z) : bool :=
  negb (in_bounds t) || in_bounds (add_months t n).

(** Comparison of an index entry with a timestamp; NaT compares false. *)
Definition idx_ge (i : option Timestamp) (t : Timestamp) : bool :=
  match i with Some d => ts_le t d | None => false end.

Definition idx_le (i : option Timestamp) (t : Timestamp) : bool :=
  match i with Some d => ts_le d t | None => false end.

Definition idx_gt (i : option Timestamp) (t : Timestamp) : bool :=
  match i with Some d => ts_lt t d | None => false end.

Definition idx_lt (i : option Timestamp) (t : Timestamp) : bool :=
  match i with Some d => ts_lt d t | None => false end.

(* ================================================================== *)
(** ** Cells, columns and frames *)

Inductive value : Type :=
| VFloat (f : float64)
| VInt (z : Z)
| VStr (s : string)
| VNone.

Definition column : Type := list value.

Record DataFrame : Type := mkFrame {
  df_index : list (option Timestamp);
  df_columns : list (string * column)
}.

Fixpoint lookup {A} (k : string) (l : list (string * A)) : option A :=
  match l with
  | [] => None
  | (k', v) :: t => if String.eqb k k' then Some v else lookup k t
  end.

(** Assignment to a key keeps the position of a key that is present and
    appends a new one, for frame columns as for dictionary entries. *)
Fixpoint assign {A} (k : string) (v : A) (l : list (string * A))
    : list (string * A) :=
  match l with
  | [] => [(k, v)]
  | (k', v') :: t =>
      if String.eqb k k' then (k, v) :: t else (k', v') :: assign k v t
  end.

Definition get_col (c : string) (df : DataFrame) : option column :=
  lookup c (df_columns df).

Definition set_col (c : string) (col : column) (df : DataFrame) : DataFrame :=
  mkFrame (df_index df) (assign c col (df_columns df)).

Definition nrows (df : DataFrame) : nat := length (df_index df).

(** [df.loc[mask, c] = v]; a column that does not exist yet is created with
    NaN in the rows the mask leaves out. *)
Definition mask_assign (mask : list bool) (v : value) (col : column) : column :=
  map2 (fun (m : bool) x => if m then v else x) mask col.

Definition loc_set (mask : list bool) (c : string) (v : value)
    (df : DataFrame) : DataFrame :=
  match get_col c df with
  | Some col => set_col c (mask_assign mask v col) df
  | None => set_col c (mask_assign mask v (repeat (VFloat NaN) (nrows df))) df
  end.

(** Python exceptions the modelled code can raise, and [BadRef] for an
    address that holds no object of the expected kind.
    [ColumnsNotFound] is the [KeyError] of a column selection on a
    grouped frame, whose message names the missing columns. *)
Inductive exn : Type :=
| KeyError (k : string)
| ColumnsNotFound (missing : list string)
| OutOfBoundsDatetime
| TypeError
| BadRef (a : nat).

Inductive result (A : Type) : Type :=
| Ok (a : A)
| Raise (e : exn).

Arguments Ok {A} a.
Arguments Raise {A} e.

Definition rbind {A B} (r : result A) (k : A -> result B) : result B :=
  match r with Ok a => k a | Raise e => Raise e end.

Fixpoint rmapM {A B} (f : A -> result B) (l : list A) : result (list B) :=
  match l with
  | [] => Ok []
  | x :: t => rbind (f x) (fun y => rbind (rmapM f t) (fun ys => Ok (y :: ys)))
  end.

Definition float_col (xs : list float64) : column := map VFloat xs.

Definition int_col (xs : list Z) : column := map VInt xs.

(** The numeric view of a column that numpy arithmetic needs. *)
Definition as_float (v : value) : result float64 :=
  match v with
  | VFloat f => Ok f
  | VInt z => Ok (Fin (IZR z))
  | VStr _ | VNone => Raise TypeError
  end.

Definition floats_of (col : column) : result (list float64) := rmapM as_float col.

Definition as_int (v : value) : result Z :=
  match v with
  | VInt z => Ok z
  | _ => Raise TypeError
  end.

Definition ints_of (col : column) : result (list Z) := rmapM as_int col.

Definition lift_col (f : list float64 -> list float64) (c : column)
    : result column :=
  rbind (floats_of c) (fun xs => Ok (float_col (f xs))).

Definition lift_col2 (f : float64 -> float64 -> float64) (a b : column)
    : result column :=
  rbind (floats_of a) (fun xs =>
  rbind (floats_of b) (fun ys => Ok (float_col (map2 f xs ys)))).

(** [a | b] on two integer columns. *)
Definition col_or (a b : column) : result column :=
  rbind (ints_of a) (fun xs =>
  rbind (ints_of b) (fun ys => Ok (int_col (map2 Z.lor xs ys)))).

(* ================================================================== *)
(** ** The object heap and the monad of Python statements *)

Inductive obj : Type :=
| OFrame (df : DataFrame)
| ODict (items : list (string * nat)).

Definition heap : Type := list obj.

Definition M (A : Type) : Type := heap -> result (A * heap).

Definition ret {A} (a : A) : M A := fun h => Ok (a, h).

Definition bind {A B} (m : M A) (k : A -> M B) : M B :=
  fun h => match m h with
           | Ok (a, h') => k a h'
           | Raise e => Raise e
           end.

Definition raise {A} (e : exn) : M A := fun _ => Raise e.

Definition lift {A} (r : result A) : M A :=
  fun h => match r with Ok a => Ok (a, h) | Raise e => Raise e end.

Notation "x <- c1 ;; c2" := (bind c1 (fun x => c2))
  (at level 61, c1 at next level, right associativity).
Notation "c1 ;; c2" := (bind c1 (fun _ => c2))
  (at level 61, right associativity).

Fixpoint for_each {A} (l : list A) (body : A -> M unit) : M unit :=
  match l with
  | [] => ret tt
  | x :: t => body x ;; for_each t body
  end.

Fixpoint update {A} (a : nat) (o : A) (h : list A) : list A :=
  match h, a with
  | [], _ => []
  | _ :: t, O => o :: t
  | x :: t, S a' => x :: update a' o t
  end.

Definition alloc (o : obj) : M nat := fun h => Ok (length h, h ++ [o]).

Definition load (a : nat) : M obj :=
  fun h => match nth_error h a with
           | Some o => Ok (o, h)
           | None => Raise (BadRef a)
           end.

Definition store (a : nat) (o : obj) : M unit :=
  fun h => if (a <? length h)%nat then Ok (tt, update a o h)
           else Raise (BadRef a).

Definition load_frame (a : nat) : M DataFrame :=
  o <- load a ;;
  match o with OFrame df => ret df | _ => raise (BadRef a) end.

Definition load_dict (a : nat) : M (list (string * nat)) :=
  o <- load a ;;
  match o with ODict items => ret items | _ => raise (BadRef a) end.

(** [df.copy()] *)
Definition df_copy (a : nat) : M nat :=
  df <- load_frame a ;; alloc (OFrame df).

(** [df[c]] *)
Definition df_getitem (a : nat) (c : string) : M column :=
  df <- load_frame a ;;
  match get_col c df with
  | Some col => ret col
  | None => raise (KeyError c)
  end.

(** [df[c] = col] *)
Definition df_setitem (a : nat) (c : string) (col : column) : M unit :=
  df <- load_frame a ;; store a (OFrame (set_col c col df)).

(** [df[c] = v] for a scalar [v], broadcast over the rows. *)
Definition df_setitem_scalar (a : nat) (c : string) (v : value) : M unit :=
  df <- load_frame a ;; store a (OFrame (set_col c (repeat v (nrows df)) df)).

(** [df.loc[mask, c] = v] *)
Definition df_loc_setitem (a : nat) (mask : list bool) (c : string) (v : value)
    : M unit :=
  df <- load_frame a ;; store a (OFrame (loc_set mask c v df)).

(** [df.index] *)
Definition df_get_index (a : nat) : M (list (option Timestamp)) :=
  df <- load_frame a ;; ret (df_index df).

(** [{}], [d.items()] and [d[k] = v] *)
Definition dict_new : M nat := alloc (ODict []).

Definition dict_items (d : nat) : M (list (string * nat)) := load_dict d.

Definition dict_setitem (d : nat) (k : string) (v : nat) : M unit :=
  items <- load_dict d ;; store d (ODict (assign k v items)).

Local Open Scope string_scope.
Local Open Scope list_scope.

(* ================================================================== *)
(** ** [src/features.py] *)

Section Features.

(** What [pd.to_numeric] makes of a string cell: the number it spells, or
    NaN under [errors="coerce"]. *)
Variable parse_numeric : string -> float64.

Definition coerce_numeric (v : value) : float64 :=
  match v with
  | VFloat f => f
  | VInt z => Fin (IZR z)
  | VStr s => parse_numeric s
  | VNone => NaN
  end.

(** [pd.to_numeric(col, errors="coerce")] *)
Definition to_numeric (col : column) : column :=
  float_col (map coerce_numeric col).

(** The body of the loop of [compute_features] for one dictionary item.
    The diagnostic line printed at its end is console output and is not
    modelled. *)
Definition features_item (features : nat) (item : string * nat) : M unit :=
  let '(name, src) := item in
  df <- df_copy src ;;
  close <- df_getitem df "Close" ;;
  df_setitem df "Close" (to_numeric close) ;;
  close <- df_getitem df "Close" ;;
  log_return <- lift (lift_col (fun xs => diff (map np_log xs)) close) ;;
  df_setitem df "log_return" log_return ;;
  log_return <- df_getitem df "log_return" ;;
  vol <- lift (lift_col (rolling_std 30) log_return) ;;
  df_setitem df "vol_30d" vol ;;
  close <- df_getitem df "Close" ;;
  peak <- lift (lift_col cummax close) ;;
  df_setitem df "peak" peak ;;
  close <- df_getitem df "Close" ;;
  peak <- df_getitem df "peak" ;;
  excess <- lift (lift_col2 fsub close peak) ;;
  peak <- df_getitem df "peak" ;;
  drawdown <- lift (lift_col2 fdiv excess peak) ;;
  df_setitem df "drawdown" drawdown ;;
  dict_setitem features name df.

Definition compute_features (data : nat) : M nat :=
  features <- dict_new ;;
  items <- dict_items data ;;
  for_each items (features_item features) ;;
  ret features.

End Features.

(* ================================================================== *)
(** ** [src/crisis_windows.py] *)

(** An entry of the calendar after [pd.to_datetime] has parsed its dates. *)
Record Crisis : Type := mkCrisis {
  crisis_name : string;
  crisis_start : Timestamp;
  crisis_end : Timestamp
}.

Definition CRISES : list Crisis :=
  [ mkCrisis "dotcom_bubble" (date 2000 3 1) (date 2002 10 31);
    mkCrisis "global_financial_crisis" (date 2007 10 1) (date 2009 3 31);
    mkCrisis "european_debt_crisis" (date 2011 7 1) (date 2012 12 31);
    mkCrisis "covid_crash" (date 2020 2 15) (date 2020 4 30) ].

(** [t + pd.DateOffset(months=n)] and, with [- n],
    [t - pd.DateOffset(months=n)]: pandas raises [OutOfBoundsDatetime]
    when the moved date is no [pd.Timestamp]. *)
Definition date_offset (t : Timestamp) (n : Z) : result Timestamp :=
  if offset_ok t n then Ok (add_months t n) else Raise OutOfBoundsDatetime.

Section Labelling.

Variables pre_crisis_months post_crisis_months : Z.

(** The two buffer bounds of an interval, when they are representable. *)
Definition pre_start (c : Crisis) : Timestamp :=
  add_months (crisis_start c) (- pre_crisis_months).

Definition post_end (c : Crisis) : Timestamp :=
  add_months (crisis_end c) post_crisis_months.

(** Both buffer bounds of [c] are representable: lines 90-91 of
    [crisis_windows.py] do not raise for [c]. *)
Definition buffers_in_range (c : Crisis) : bool :=
  offset_ok (crisis_start c) (- pre_crisis_months)
  && offset_ok (crisis_end c) post_crisis_months.

(** The three masks of one interval at one index entry. *)
Definition in_crisis (c : Crisis) (d : option Timestamp) : bool :=
  idx_ge d (crisis_start c) && idx_le d (crisis_end c).

Definition in_pre (c : Crisis) (d : option Timestamp) : bool :=
  idx_ge d (pre_start c) && idx_lt d (crisis_start c).

Definition in_post (c : Crisis) (d : option Timestamp) : bool :=
  idx_gt d (crisis_end c) && idx_le d (post_end c).

(** The body of the inner loop: one interval applied to the frame [df]. *)
Definition label_crisis (df : nat) (crisis : Crisis) : M unit :=
  let start := crisis_start crisis in
  let end_ := crisis_end crisis in
  pre_start <- lift (date_offset start (- pre_crisis_months)) ;;
  post_end <- lift (date_offset end_ post_crisis_months) ;;
  index <- df_get_index df ;;
  let crisis_mask := map (fun d => idx_ge d start && idx_le d end_) index in
  let pre_mask := map (fun d => idx_ge d pre_start && idx_lt d start) index in
  let post_mask := map (fun d => idx_gt d end_ && idx_le d post_end) index in
  df_loc_setitem df crisis_mask "regime" (VStr "crisis") ;;
  df_loc_setitem df crisis_mask "crisis_name" (VStr (crisis_name crisis)) ;;
  df_loc_setitem df crisis_mask "is_crisis" (VInt 1) ;;
  df_loc_setitem df pre_mask "regime" (VStr "pre_crisis") ;;
  df_loc_setitem df pre_mask "crisis_name" (VStr (crisis_name crisis)) ;;
  df_loc_setitem df pre_mask "is_pre_crisis" (VInt 1) ;;
  df_loc_setitem df post_mask "regime" (VStr "post_crisis") ;;
  df_loc_setitem df post_mask "crisis_name" (VStr (crisis_name crisis)).

(** The body of the outer loop for one dictionary item; the calendar is
    the module constant [CRISES] in the source and a parameter here. *)
Definition label_item (crises : list Crisis) (labelled_data : nat)
    (item : string * nat) : M unit :=
  let '(name, src) := item in
  df <- df_copy src ;;
  df_setitem_scalar df "regime" (VStr "normal") ;;
  df_setitem_scalar df "crisis_name" VNone ;;
  df_setitem_scalar df "is_crisis" (VInt 0) ;;
  df_setitem_scalar df "is_pre_crisis" (VInt 0) ;;
  df_setitem_scalar df "is_high_risk" (VInt 0) ;;
  for_each crises (label_crisis df) ;;
  is_crisis <- df_getitem df "is_crisis" ;;
  is_pre_crisis <- df_getitem df "is_pre_crisis" ;;
  high_risk <- lift (col_or is_crisis is_pre_crisis) ;;
  df_setitem df "is_high_risk" high_risk ;;
  dict_setitem labelled_data name df.

Definition label_crisis_periods_with (crises : list Crisis) (data : nat)
    : M nat :=
  labelled_data <- dict_new ;;
  items <- dict_items data ;;
  for_each items (label_item crises labelled_data) ;;
  ret labelled_data.

Definition label_crisis_periods (data : nat) : M nat :=
  label_crisis_periods_with CRISES data.

End Labelling.

(* ================================================================== *)
(** ** [src/analysis.py] *)

Record Stats : Type := mkStats {
  st_mean : float64;
  st_std : float64;
  st_min : float64;
  st_max : float64
}.

(** One row of a regime summary: the group key and, for each of the three
    variables, its four statistics. *)
Record SummaryRow : Type := mkRow {
  sr_regime : string;
  sr_log_return : Stats;
  sr_vol_30d : Stats;
  sr_drawdown : Stats
}.

(** A summary row with the added ["index"] column naming its series. *)
Record FlatRow : Type := mkFlat {
  fr_row : SummaryRow;
  fr_index : string
}.

Definition dropna (xs : list float64) : list float64 :=
  filter (fun x => negb (isna x)) xs.

Definition fsum (xs : list float64) : float64 := fold_left fadd xs (Fin 0%R).

Definition fcount (xs : list float64) : float64 := Fin (INR (length xs)).

Definition agg_mean (xs : list float64) : float64 :=
  match dropna xs with
  | [] => NaN
  | v => fdiv (fsum v) (fcount v)
  end.

Definition agg_std (xs : list float64) : float64 :=
  let v := dropna xs in
  if (length v <=? 1)%nat then NaN
  else
    let m := fdiv (fsum v) (fcount v) in
    fsqrt (fdiv (fsum (map (fun x => fmul (fsub x m) (fsub x m)) v))
                (fsub (fcount v) (Fin 1%R))).

Definition agg_min (xs : list float64) : float64 :=
  match dropna xs with
  | [] => NaN
  | x :: t => fold_left fmin t x
  end.

Definition agg_max (xs : list float64) : float64 :=
  match dropna xs with
  | [] => NaN
  | x :: t => fold_left fmax t x
  end.

(** [.agg(["mean", "std", "min", "max"])] for one variable of one group;
    missing values are skipped. *)
Definition agg (xs : list float64) : Stats :=
  mkStats (agg_mean xs) (agg_std xs) (agg_min xs) (agg_max xs).

(** The group keys in sorted order.  [groupby] drops missing keys; a frame
    written by [label_crisis_periods] has only strings in ["regime"], and
    the model keys on strings alone. *)
Fixpoint insert_key (k : string) (ks : list string) : list string :=
  match ks with
  | [] => [k]
  | k' :: t =>
      if String.eqb k k' then ks
      else if String.ltb k k' then k :: ks
      else k' :: insert_key k t
  end.

Definition group_keys (keys : column) : list string :=
  fold_right
    (fun v acc => match v with VStr s => insert_key s acc | _ => acc end)
    [] keys.

(** The cells of [xs] in the rows whose key is [k]. *)
Fixpoint group_of (k : string) (keys : column) (xs : list float64)
    : list float64 :=
  match keys, xs with
  | v :: keys', x :: xs' =>
      match v with
      | VStr s => if String.eqb s k then x :: group_of k keys' xs'
                  else group_of k keys' xs'
      | _ => group_of k keys' xs'
      end
  | _, _ => []
  end.

Definition frame_col (c : string) (df : DataFrame) : result column :=
  match get_col c df with
  | Some col => Ok col
  | None => Raise (KeyError c)
  end.

(** The columns of [cs] that [df] lacks. *)
Definition missing_cols (cs : list string) (df : DataFrame) : list string :=
  filter (fun c => match get_col c df with Some _ => false | None => true end)
         cs.

(** One column of the selection [grouped[cs]]: when [df] lacks columns of
    [cs] the selection raises [KeyError("Columns not found: ...")], which
    names them all (as a set: their order in the message is not fixed). *)
Definition selected_col (cs : list string) (c : string) (df : DataFrame)
    : result column :=
  match get_col c df with
  | Some col => Ok col
  | None => Raise (ColumnsNotFound (missing_cols cs df))
  end.

Definition summary_vars : list string := ["log_return"; "vol_30d"; "drawdown"].

Definition regime_summary (df : DataFrame) : result (list SummaryRow) :=
  rbind (frame_col "regime" df) (fun regime =>
  rbind (selected_col summary_vars "log_return" df) (fun c1 =>
  rbind (selected_col summary_vars "vol_30d" df) (fun c2 =>
  rbind (selected_col summary_vars "drawdown" df) (fun c3 =>
  rbind (floats_of c1) (fun log_return =>
  rbind (floats_of c2) (fun vol_30d =>
  rbind (floats_of c3) (fun drawdown =>
  Ok (map (fun k => mkRow k (agg (group_of k regime log_return))
                            (agg (group_of k regime vol_30d))
                            (agg (group_of k regime drawdown)))
          (group_keys regime))))))))).

(** [plot_index_panels] reads three columns; rendering and saving the
    figure are not modelled. *)
Definition plot_index_panels (df : nat) : M unit :=
  df_getitem df "Close" ;;
  df_getitem df "vol_30d" ;;
  df_getitem df "drawdown" ;;
  ret tt.

(** What [run_analysis] saves: one table per series, and the table written
    to [all_indices_regime_summary.csv] when there is at least one series.
    The model computes the tables; creating the directories and writing
    the files, whose paths are built from the keys of the dictionary and
    which can fail, are not modelled. *)
Record Saved : Type := mkSaved {
  per_index : list (string * list SummaryRow);
  all_summaries : list (list FlatRow)
}.

Definition analysis_item (acc : Saved) (item : string * nat) : M Saved :=
  let '(name, r) := item in
  df <- load_frame r ;;
  summary <- lift (regime_summary df) ;;
  let flat := map (fun row => mkFlat row name) summary in
  plot_index_panels r ;;
  ret (mkSaved (per_index acc ++ [(name, summary)])
               (all_summaries acc ++ [flat])).

Fixpoint foldM {A S} (l : list A) (s : S) (body : S -> A -> M S) : M S :=
  match l with
  | [] => ret s
  | x :: t => s' <- body s x ;; foldM t s' body
  end.

Definition run_analysis (labelled_data : nat)
    : M (list (string * list SummaryRow) * option (list FlatRow)) :=
  items <- dict_items labelled_data ;;
  saved <- foldM items (mkSaved [] []) analysis_item ;;
  match all_summaries saved with
  | [] => ret (per_index saved, None)
  | tables => ret (per_index saved, Some (concat tables))
  end.

(** The combined summary as the specification words it: the per-series
    labelled rows are concatenated first, then grouped by regime. *)
Definition concat_col (c : string) (dfs : list DataFrame) : result column :=
  rbind (rmapM (frame_col c) dfs) (fun cols => Ok (concat cols)).

Definition combined_of_concatenation (dfs : list DataFrame)
    : result (list SummaryRow) :=
  rbind (concat_col "regime" dfs) (fun regime =>
  rbind (concat_col "log_return" dfs) (fun c1 =>
  rbind (concat_col "vol_30d" dfs) (fun c2 =>
  rbind (concat_col "drawdown" dfs) (fun c3 =>
  regime_summary
    (mkFrame (concat (map df_index dfs))
             [("regime", regime); ("log_return", c1);
              ("vol_30d", c2); ("drawdown", c3)]))))).

(* ================================================================== *)
(** ** What a call leaves in the heap *)

Definition frame_at (h : heap) (a : nat) (df : DataFrame) : Prop :=
  nth_error h a = Some (OFrame df).

Definition dict_at (h : heap) (d : nat) (items : list (string * nat)) : Prop :=
  nth_error h d = Some (ODict items).

(** [entry h d name a df]: in heap [h] the dictionary at [d] maps [name] to
    the address [a], which holds the frame [df]. *)
Definition entry (h : heap) (d : nat) (name : string) (a : nat)
    (df : DataFrame) : Prop :=
  exists items, dict_at h d items /\ lookup name items = Some a /\
                frame_at h a df.

(** Every object of [h] is still there, unchanged, in [h']. *)
Definition preserved (h h' : heap) : Prop :=
  forall a o, nth_error h a = Some o -> nth_error h' a = Some o.

(** The frame an address holds, for use where the address is known to hold
    one. *)
Definition empty_frame : DataFrame := mkFrame [] [].

Definition frame_of (h : heap) (a : nat) : DataFrame :=
  match nth_error h a with
  | Some (OFrame df) => df
  | _ => empty_frame
  end.

(** The numeric prices of a frame: its ["Close"] column after coercion. *)
Definition prices_of (parse_numeric : string -> float64) (df : DataFrame)
    : list float64 :=
  match get_col "Close" df with
  | Some close => map (coerce_numeric parse_numeric) close
  | None => []
  end.

(** The frame [features_item] leaves in the copy, as one expression. *)
Definition featured (parse_numeric : string -> float64) (df : DataFrame)
    : DataFrame :=
  let prices := prices_of parse_numeric df in
  let log_return := diff (map np_log prices) in
  let peak := cummax prices in
  set_col "drawdown" (float_col (map2 fdiv (map2 fsub prices peak) peak))
   (set_col "peak" (float_col peak)
    (set_col "vol_30d" (float_col (rolling_std 30 log_return))
     (set_col "log_return" (float_col log_return)
      (set_col "Close" (float_col prices) df)))).

(** A float column read back from a frame. *)
Definition fcol (c : string) (df : DataFrame) : option (list float64) :=
  match get_col c df with
  | Some col => match floats_of col with Ok xs => Some xs | Raise _ => None end
  | None => None
  end.

(** The cell of column [c] in row [i]. *)
Definition cell (c : string) (i : nat) (df : DataFrame) : option value :=
  match get_col c df with
  | Some col => nth_error col i
  | None => None
  end.

(** The labels of one row, and what one interval does to them. *)
Record RowLabel : Type := mkLabel {
  rl_regime : value;
  rl_crisis_name : value;
  rl_is_crisis : value;
  rl_is_pre_crisis : value
}.

Definition normal_row : RowLabel := mkLabel (VStr "normal") VNone (VInt 0) (VInt 0).

Definition on_crisis (c : Crisis) (r : RowLabel) : RowLabel :=
  mkLabel (VStr "crisis") (VStr (crisis_name c)) (VInt 1) (rl_is_pre_crisis r).

Definition on_pre (c : Crisis) (r : RowLabel) : RowLabel :=
  mkLabel (VStr "pre_crisis") (VStr (crisis_name c)) (rl_is_crisis r) (VInt 1).

Definition on_post (c : Crisis) (r : RowLabel) : RowLabel :=
  mkLabel (VStr "post_crisis") (VStr (crisis_name c))
          (rl_is_crisis r) (rl_is_pre_crisis r).

Definition when {A} (b : bool) (f : A -> A) (x : A) : A := if b then f x else x.

Section RowLabelling.

Variables pre post : Z.

Definition label_step (d : option Timestamp) (r : RowLabel) (c : Crisis)
    : RowLabel :=
  when (in_post post c d) (on_post c)
    (when (in_pre pre c d) (on_pre c)
      (when (in_crisis c d) (on_crisis c) r)).

Definition label_row (crises : list Crisis) (d : option Timestamp) : RowLabel :=
  fold_left (label_step d) crises normal_row.

(** Some mask of the interval selects the index entry. *)
Definition matched (c : Crisis) (d : option Timestamp) : bool :=
  in_crisis c d || in_pre pre c d || in_post post c d.

Definition high_risk (r : RowLabel) : value :=
  match rl_is_crisis r, rl_is_pre_crisis r with
  | VInt a, VInt b => VInt (Z.lor a b)
  | _, _ => VNone
  end.

(** The frame [label_item] leaves in the copy: the initial columns, the
    eight masked assignments of every interval in turn, and the final
    ["is_high_risk"] column. *)
Definition init_labels (df : DataFrame) : DataFrame :=
  let n := nrows df in
  set_col "is_high_risk" (repeat (VInt 0) n)
   (set_col "is_pre_crisis" (repeat (VInt 0) n)
    (set_col "is_crisis" (repeat (VInt 0) n)
     (set_col "crisis_name" (repeat VNone n)
      (set_col "regime" (repeat (VStr "normal") n) df)))).

Definition apply_crisis (df : DataFrame) (c : Crisis) : DataFrame :=
  let crisis_mask := map (in_crisis c) (df_index df) in
  let pre_mask := map (in_pre pre c) (df_index df) in
  let post_mask := map (in_post post c) (df_index df) in
  loc_set post_mask "crisis_name" (VStr (crisis_name c))
   (loc_set post_mask "regime" (VStr "post_crisis")
    (loc_set pre_mask "is_pre_crisis" (VInt 1)
     (loc_set pre_mask "crisis_name" (VStr (crisis_name c))
      (loc_set pre_mask "regime" (VStr "pre_crisis")
       (loc_set crisis_mask "is_crisis" (VInt 1)
        (loc_set crisis_mask "crisis_name" (VStr (crisis_name c))
         (loc_set crisis_mask "regime" (VStr "crisis") df))))))).

Definition labelled (crises : list Crisis) (df : DataFrame) : DataFrame :=
  set_col "is_high_risk"
    (map high_risk (map (label_row crises) (df_index df)))
    (fold_left apply_crisis crises (init_labels df)).

End RowLabelling.

(** The four label columns hold, row by row, the fields of [g] at the
    row's index entry. *)
Definition labels_are (g : option Timestamp -> RowLabel) (df : DataFrame)
    : Prop :=
  get_col "regime" df = Some (map (fun d => rl_regime (g d)) (df_index df)) /\
  get_col "crisis_name" df
    = Some (map (fun d => rl_crisis_name (g d)) (df_index df)) /\
  get_col "is_crisis" df
    = Some (map (fun d => rl_is_crisis (g d)) (df_index df)) /\
  get_col "is_pre_crisis" df
    = Some (map (fun d => rl_is_pre_crisis (g d)) (df_index df)).

(** The columns [label_crisis_periods] writes. *)
Definition label_column (c : string) : bool :=
  existsb (String.eqb c)
    ["regime"; "crisis_name"; "is_crisis"; "is_pre_crisis"; "is_high_risk"].

(** The flags are integers all along, so the final [|] is defined. *)
Definition int_flags (r : RowLabel) : Prop :=
  exists a b, rl_is_crisis r = VInt a /\ rl_is_pre_crisis r = VInt b.

(** The heap a dictionary loop leaves: the objects of [h], then the new
    dictionary, then one new frame per item, in the order of the items. *)
Definition heap_after (F : DataFrame -> DataFrame) (h : heap)
    (items : list (string * nat)) : heap :=
  h ++ ODict (combine (map fst items) (seq (S (length h)) (length items)))
    :: map (fun it => OFrame (F (frame_of h (snd it)))) items.

(** The input of [label_crisis_periods]: the dictionary at [data] has
    distinct keys, all bound to frames, and binds [name] to [df]. *)
Definition frames_input (h : heap) (data : nat) (name : string)
    (df : DataFrame) : Prop :=
  exists items a,
    dict_at h data items /\ NoDup (map fst items) /\
    (forall k b, In (k, b) items -> exists f, frame_at h b f) /\
    lookup name items = Some a /\ frame_at h a df.

(** The input of [compute_features]: moreover every frame has a ["Close"]
    column. *)
Definition prices_input (h : heap) (data : nat) (name : string)
    (df : DataFrame) : Prop :=
  exists items a,
    dict_at h data items /\ NoDup (map fst items) /\
    (forall k b, In (k, b) items ->
       exists f col, frame_at h b f /\ get_col "Close" f = Some col) /\
    lookup name items = Some a /\ frame_at h a df.

(** [returns m h name df']: the call [m] in heap [h] returns, without
    raising, a dictionary that binds [name] to a frame [df']; the
    dictionary and the frame are new objects and every object of [h] is
    unchanged. *)
Definition returns (m : M nat) (h : heap) (name : string) (df' : DataFrame)
    : Prop :=
  exists out h' a',
    m h = Ok (out, h') /\ entry h' out name a' df' /\
    preserved h h' /\ (length h <= out)%nat /\ (length h <= a')%nat.

(** The regime an interval writes to a row it matches: the last of its
    masks, in the order crisis, pre, post, that selects the row. *)
Definition written_regime (pre post : Z) (c : Crisis) (d : option Timestamp)
    : string :=
  if in_post post c d then "post_crisis"
  else if in_pre pre c d then "pre_crisis"
  else "crisis".

(** Flags are 0 or 1, and a row no crisis or pre-crisis mask selects has
    both at 0. *)
Definition bit (v : value) : Prop := v = VInt 0 \/ v = VInt 1.

(** ** A small pipeline state for examples *)

(** One series of six rows, the last with an unparseable date, and the
    dictionary that binds it to ["SP500"]. *)
Definition example_frame : DataFrame :=
  mkFrame
    [ Some (date 2002 10 15); Some (date 2020 3 2); Some (date 2020 6 1);
      Some (date 2015 1 5); Some (date 2019 9 1); None ]
    [ ("Close", [ VFloat (Fin 100); VFloat (Fin 105); VStr "n/a";
                  VFloat (Fin 0); VFloat (Fin 110); VFloat (Fin 90) ]) ].

Definition example_heap : heap := [ OFrame example_frame; ODict [("SP500", 0%nat)] ].


(** ** Vocabulary of the feature properties *)

(** A price that is missing or not positive, and one that is missing or
    negative. *)
Definition missing_or_nonpositive (f : float64) : Prop :=
  match f with
  | NaN | NInf => True
  | PInf => False
  | Fin x => (x <= 0)%R
  end.

Definition missing_or_negative (f : float64) : Prop :=
  match f with
  | NaN | NInf => True
  | PInf => False
  | Fin x => (x < 0)%R
  end.

(** "[log_return[i]] is missing iff [price[i]] or [price[i-1]] is missing
    or non-positive", for every [i >= 1]. *)
Definition log_return_missing_iff (prices lr : list float64) : Prop :=
  forall i p q r,
    nth_error prices i = Some p ->
    nth_error prices (S i) = Some q ->
    nth_error lr (S i) = Some r ->
    (isna r = true <-> missing_or_nonpositive p \/ missing_or_nonpositive q).

(** [m] is the maximum of the non-missing prices at positions [0..i]. *)
Definition is_running_max (prices : list float64) (i : nat) (m : float64)
    : Prop :=
  (exists j, (j <= i)%nat /\ nth_error prices j = Some m /\ isna m = false) /\
  (forall j p, (j <= i)%nat -> nth_error prices j = Some p ->
               isna p = false -> fle p m).

(** "[running_peak[i]] is the maximum of the non-missing prices at [0..i],
    carried forward over missing prices". *)
Definition peak_carried_forward (prices peak : list float64) : Prop :=
  forall i m, is_running_max prices i m -> nth_error peak i = Some m.







(** ** Vocabulary of the analysis *)

(** The summary of the frame at an address, and the rows of a summary
    tagged with the name of their series. *)
Definition summary_at (h : heap) (a : nat) : list SummaryRow :=
  match regime_summary (frame_of h a) with
  | Ok s => s
  | Raise _ => []
  end.

Definition tagged (name : string) (s : list SummaryRow) : list FlatRow :=
  map (fun row => mkFlat row name) s.

(** The per-series summaries stacked in the order of the dictionary. *)
Definition stacked (h : heap) (items : list (string * nat)) : list FlatRow :=
  concat (map (fun it => tagged (fst it) (summary_at h (snd it))) items).

(** The input of [run_analysis]: a dictionary of frames that have the
    columns the summary and the plots read. *)
Definition labelled_input (h : heap) (data : nat) (items : list (string * nat))
    : Prop :=
  dict_at h data items /\
  forall name a, In (name, a) items ->
    exists df s close,
      frame_at h a df /\ regime_summary df = Ok s /\
      get_col "Close" df = Some close.

(** Two labelled series of two rows, all "normal". *)
Definition series_frame (r : R) : DataFrame :=
  mkFrame [ Some (date 2015 1 5); Some (date 2015 1 6) ]
    [ ("Close", float_col [Fin 100; Fin 110]);
      ("log_return", float_col [NaN; Fin r]);
      ("vol_30d", float_col [NaN; NaN]);
      ("peak", float_col [Fin 100; Fin 110]);
      ("drawdown", float_col [Fin 0; Fin 0]);
      ("regime", [VStr "normal"; VStr "normal"]);
      ("crisis_name", [VNone; VNone]);
      ("is_crisis", int_col [0; 0]);
      ("is_pre_crisis", int_col [0; 0]);
      ("is_high_risk", int_col [0; 0]) ].

Definition two_series_heap : heap :=
  [ OFrame (series_frame 1); OFrame (series_frame 3);
    ODict [("SP500", 0%nat); ("NASDAQ", 1%nat)] ].

(** ** Vocabulary of the further properties *)

(** The four regime labels. *)
Definition regime_labels : list string :=
  ["normal"; "pre_crisis"; "crisis"; "post_crisis"].

(** A flag as the integer cell the code writes. *)
Definition flag (b : bool) : value := VInt (if b then 1 else 0).

(** A timestamp that denotes a date of the calendar. *)
Definition valid_ts (t : Timestamp) : Prop :=
  (1 <= ts_month t <= 12 /\ 1 <= ts_day t <= days_in_month (ts_year t) (ts_month t))%Z.

Definition valid_crisis (c : Crisis) : Prop :=
  valid_ts (crisis_start c) /\ valid_ts (crisis_end c).

(** The columns [compute_features] writes. *)
Definition feature_column (c : string) : bool :=
  existsb (String.eqb c) ["Close"; "log_return"; "vol_30d"; "peak"; "drawdown"].

(** The input of [compute_features] as a whole: a dictionary with distinct
    keys whose values are frames with a ["Close"] column. *)
Definition prices_dict (h : heap) (data : nat) (items : list (string * nat))
    : Prop :=
  dict_at h data items /\ NoDup (map fst items) /\
  forall k b, In (k, b) items ->
    exists f col, frame_at h b f /\ get_col "Close" f = Some col.

(** Likewise for [label_crisis_periods]. *)
Definition frames_dict (h : heap) (data : nat) (items : list (string * nat))
    : Prop :=
  dict_at h data items /\ NoDup (map fst items) /\
  forall k b, In (k, b) items -> exists f, frame_at h b f.



(** ** [main.py] *)

(** Steps 3 and 4 of [main]: the features, then the labels with the
    default buffers of six months.  Step 2, [load_indices], reads files
    and its result is the argument here; step 5, [run_analysis], takes
    the dictionary returned here. *)
Definition features_then_labels (parse_numeric : string -> float64)
    (raw_data : nat) : M nat :=
  data_with_features <- compute_features parse_numeric raw_data ;;
  label_crisis_periods 6 6 data_with_features.





(** Keys in strictly increasing order. *)
Fixpoint increasing (ks : list string) : Prop :=
  match ks with
  | [] => True
  | k :: t => Forall (fun k' => String.ltb k k' = true) t /\ increasing t
  end.


(* ================================================================== *)
(** * Proofs *)

Unset Implicit Arguments.

(** ** Keys, columns and heap cells *)

Lemma lookup_assign_same {A} (k : string) (v : A) l :
  lookup k (assign k v l) = Some v.
Proof.
  induction l as [|[k' v'] t IH]; simpl.
  - now rewrite String.eqb_refl.
  - destruct (String.eqb k k') eqn:E; simpl.
    + now rewrite String.eqb_refl.
    + now rewrite E.
Qed.

Lemma lookup_assign_other {A} (k k' : string) (v : A) l :
  k <> k' -> lookup k (assign k' v l) = lookup k l.
Proof.
  intros N. induction l as [|[k0 v0] t IH]; simpl.
  - apply String.eqb_neq in N. now rewrite N.
  - destruct (String.eqb k' k0) eqn:E; simpl.
    + apply String.eqb_eq in E. subst k0.
      apply String.eqb_neq in N. now rewrite N.
    + now rewrite IH.
Qed.

Lemma assign_fresh {A} (k : string) (v : A) l :
  ~ In k (map fst l) -> assign k v l = l ++ [(k, v)].
Proof.
  induction l as [|[k' v'] t IH]; simpl; intros N; [reflexivity|].
  destruct (String.eqb k k') eqn:E.
  - apply String.eqb_eq in E. subst. tauto.
  - rewrite IH; tauto.
Qed.

Lemma get_set_same c col df : get_col c (set_col c col df) = Some col.
Proof. apply lookup_assign_same. Qed.

Lemma get_set_other c c' col df :
  c <> c' -> get_col c (set_col c' col df) = get_col c df.
Proof. intros N. now apply lookup_assign_other. Qed.

Lemma index_set_col c col df : df_index (set_col c col df) = df_index df.
Proof. reflexivity. Qed.

Lemma index_loc_set m c v df : df_index (loc_set m c v df) = df_index df.
Proof. unfold loc_set. now destruct (get_col c df). Qed.

Lemma get_loc_set_other m c c' v df :
  c <> c' -> get_col c (loc_set m c' v df) = get_col c df.
Proof.
  intros N. unfold loc_set.
  destruct (get_col c' df); now apply get_set_other.
Qed.

Lemma nth_error_last {A} (h : list A) o : nth_error (h ++ [o]) (length h) = Some o.
Proof. rewrite nth_error_app2, Nat.sub_diag; auto. Qed.

Lemma update_last {A} (h : list A) o o' :
  update (length h) o' (h ++ [o]) = h ++ [o'].
Proof. induction h; simpl; congruence. Qed.

Lemma update_app_l {A} a (o : A) h t :
  (a < length h)%nat -> update a o (h ++ t) = update a o h ++ t.
Proof.
  revert a; induction h as [|x h IH]; intros [|a]; simpl; intros; try lia; auto.
  rewrite IH; auto. lia.
Qed.

Lemma update_middle {A} (h : list A) o o' t :
  update (length h) o' (h ++ o :: t) = h ++ o' :: t.
Proof. induction h; simpl; congruence. Qed.

Lemma nth_error_middle {A} (h : list A) o t :
  nth_error (h ++ o :: t) (length h) = Some o.
Proof. rewrite nth_error_app2, Nat.sub_diag; auto. Qed.

(** ** One statement at a time *)

Lemma bind_ok {A B} (m : M A) (k : A -> M B) h a h' :
  m h = Ok (a, h') -> bind m k h = k a h'.
Proof. intros E. unfold bind. now rewrite E. Qed.

Arguments bind_ok {A B m} k {h a h'} _.

Lemma run_load_frame h a df :
  frame_at h a df -> load_frame a h = Ok (df, h).
Proof.
  intros E. unfold load_frame, bind, load. now rewrite E.
Qed.

Lemma run_load_dict h d items :
  dict_at h d items -> load_dict d h = Ok (items, h).
Proof.
  intros E. unfold load_dict, bind, load. now rewrite E.
Qed.

Lemma run_store h a o o' :
  nth_error h a = Some o -> store a o' h = Ok (tt, update a o' h).
Proof.
  intros E. unfold store.
  assert (a < length h)%nat by (apply nth_error_Some; congruence).
  apply Nat.ltb_lt in H. now rewrite H.
Qed.

Lemma run_copy h a df :
  frame_at h a df -> df_copy a h = Ok (length h, h ++ [OFrame df]).
Proof.
  intros E. unfold df_copy. now rewrite (bind_ok _ (run_load_frame _ _ _ E)).
Qed.

(** The copy under construction is the last object of the heap. *)
Lemma run_getitem h df c col :
  get_col c df = Some col ->
  df_getitem (length h) c (h ++ [OFrame df]) = Ok (col, h ++ [OFrame df]).
Proof.
  intros E. unfold df_getitem.
  rewrite (bind_ok _ (run_load_frame _ _ _ (nth_error_last h (OFrame df)))).
  now rewrite E.
Qed.

Lemma run_modify h df df' :
  (df0 <- load_frame (length h) ;; store (length h) (OFrame (df' df0)))
    (h ++ [OFrame df]) = Ok (tt, h ++ [OFrame (df' df)]).
Proof.
  rewrite (bind_ok _ (run_load_frame _ _ _ (nth_error_last h (OFrame df)))).
  rewrite (run_store _ _ _ _ (nth_error_last h (OFrame df))).
  now rewrite update_last.
Qed.

Lemma run_setitem h df c col :
  df_setitem (length h) c col (h ++ [OFrame df])
  = Ok (tt, h ++ [OFrame (set_col c col df)]).
Proof. apply (run_modify h df (set_col c col)). Qed.

Lemma run_setitem_scalar h df c v :
  df_setitem_scalar (length h) c v (h ++ [OFrame df])
  = Ok (tt, h ++ [OFrame (set_col c (repeat v (nrows df)) df)]).
Proof. apply (run_modify h df (fun d => set_col c (repeat v (nrows d)) d)). Qed.

Lemma run_loc_setitem h df m c v :
  df_loc_setitem (length h) m c v (h ++ [OFrame df])
  = Ok (tt, h ++ [OFrame (loc_set m c v df)]).
Proof. apply (run_modify h df (loc_set m c v)). Qed.

Lemma run_get_index h df :
  df_get_index (length h) (h ++ [OFrame df]) = Ok (df_index df, h ++ [OFrame df]).
Proof.
  unfold df_get_index.
  now rewrite (bind_ok _ (run_load_frame _ _ _ (nth_error_last h (OFrame df)))).
Qed.

Lemma run_dict_setitem h d items k v df :
  dict_at h d items ->
  dict_setitem d k v (h ++ [OFrame df])
  = Ok (tt, update d (ODict (assign k v items)) h ++ [OFrame df]).
Proof.
  intros E. unfold dict_setitem.
  assert (L : (d < length h)%nat) by (apply nth_error_Some; unfold dict_at in E; congruence).
  assert (E' : dict_at (h ++ [OFrame df]) d items).
  { unfold dict_at. rewrite nth_error_app1; auto. }
  rewrite (bind_ok _ (run_load_dict _ _ _ E')).
  rewrite (run_store _ _ _ _ E'). now rewrite update_app_l.
Qed.

Lemma floats_of_float_col xs : floats_of (float_col xs) = Ok xs.
Proof.
  unfold floats_of, float_col. induction xs; simpl; auto.
  now rewrite IHxs.
Qed.

Lemma run_lift {A} (r : result A) (x : A) h : r = Ok x -> lift r h = Ok (x, h).
Proof. intros E. unfold lift. now rewrite E. Qed.

Lemma lift_col_float f xs : lift_col f (float_col xs) = Ok (float_col (f xs)).
Proof. unfold lift_col. now rewrite floats_of_float_col. Qed.

Lemma lift_col2_float f xs ys :
  lift_col2 f (float_col xs) (float_col ys) = Ok (float_col (map2 f xs ys)).
Proof. unfold lift_col2. now rewrite !floats_of_float_col. Qed.

(** Columns of a frame under construction, read back. *)
Ltac cols :=
  repeat first
    [ rewrite get_set_same
    | rewrite get_set_other by discriminate ];
  try reflexivity.

Ltac run_get :=
  erewrite bind_ok; [ | apply run_getitem; cols ].

Ltac run_set :=
  erewrite bind_ok; [ | apply run_setitem ].

Ltac run_pure L :=
  erewrite bind_ok; [ | apply run_lift; apply L ].

(** ** The loop body of [compute_features] *)

Lemma features_item_run parse h d name src df close acc :
  frame_at h src df ->
  get_col "Close" df = Some close ->
  dict_at h d acc ->
  features_item parse d (name, src) h
  = Ok (tt, update d (ODict (assign name (length h) acc)) h
            ++ [OFrame (featured parse df)]).
Proof.
  intros Hf Hc Hd. unfold features_item.
  rewrite (bind_ok _ (run_copy _ _ _ Hf)).
  erewrite bind_ok; [ | apply run_getitem; exact Hc ].
  run_set. run_get. unfold to_numeric.
  run_pure lift_col_float. run_set. run_get.
  run_pure lift_col_float. run_set. run_get.
  run_pure lift_col_float. run_set. run_get. run_get.
  run_pure lift_col2_float. run_get.
  run_pure lift_col2_float. run_set.
  rewrite (run_dict_setitem _ _ _ _ _ _ Hd).
  unfold featured, prices_of. now rewrite Hc.
Qed.

(** ** The loop body of [label_crisis_periods] *)

Lemma get_loc_set m c c' v df :
  get_col c (loc_set m c' v df)
  = if String.eqb c c'
    then Some (mask_assign m v
                 match get_col c' df with
                 | Some col => col
                 | None => repeat (VFloat NaN) (nrows df)
                 end)
    else get_col c df.
Proof.
  destruct (String.eqb c c') eqn:E.
  - apply String.eqb_eq in E. subst c'. unfold loc_set.
    destruct (get_col c df); apply get_set_same.
  - apply String.eqb_neq in E. now apply get_loc_set_other.
Qed.

Lemma mask_assign_map {A} (m : A -> bool) (f : A -> value) v idx :
  mask_assign (map m idx) v (map f idx)
  = map (fun d => if m d then v else f d) idx.
Proof. unfold mask_assign. induction idx; simpl; congruence. Qed.

Lemma repeat_map {A B} (v : B) (l : list A) :
  repeat v (length l) = map (fun _ => v) l.
Proof. induction l; simpl; congruence. Qed.

Lemma init_labels_rows df : labels_are (fun _ => normal_row) (init_labels df).
Proof.
  unfold labels_are, init_labels, nrows; simpl df_index.
  rewrite <- !repeat_map. repeat split; cols.
Qed.

Lemma init_labels_other c df :
  label_column c = false -> get_col c (init_labels df) = get_col c df.
Proof.
  unfold label_column; simpl. rewrite !orb_false_iff.
  intros (E1 & E2 & E3 & E4 & E5 & _).
  apply String.eqb_neq in E1, E2, E3, E4, E5.
  unfold init_labels. now rewrite !get_set_other.
Qed.

Lemma index_apply_crisis pre post df c :
  df_index (apply_crisis pre post df c) = df_index df.
Proof. unfold apply_crisis. now rewrite !index_loc_set. Qed.

Lemma apply_crisis_rows pre post g df c :
  labels_are g df ->
  labels_are (fun d => label_step pre post d (g d) c) (apply_crisis pre post df c).
Proof.
  intros (E1 & E2 & E3 & E4). unfold labels_are.
  rewrite index_apply_crisis. unfold apply_crisis.
  repeat (rewrite get_loc_set; simpl String.eqb; cbv iota).
  rewrite E1, E2, E3, E4, !mask_assign_map.
  repeat split; f_equal; apply map_ext; intros d;
    unfold label_step, when;
    destruct (in_post post c d), (in_pre pre c d), (in_crisis c d);
    reflexivity.
Qed.

Lemma apply_crisis_other pre post c k df :
  label_column k = false ->
  get_col k (apply_crisis pre post df c) = get_col k df.
Proof.
  unfold label_column; simpl. rewrite !orb_false_iff.
  intros (E1 & E2 & E3 & E4 & E5 & _).
  apply String.eqb_neq in E1, E2, E3, E4, E5.
  unfold apply_crisis. now rewrite !get_loc_set_other.
Qed.

Lemma fold_apply_crisis pre post crises : forall g df,
  labels_are g df ->
  labels_are (fun d => fold_left (label_step pre post d) crises (g d))
             (fold_left (apply_crisis pre post) crises df) /\
  df_index (fold_left (apply_crisis pre post) crises df) = df_index df /\
  forall k, label_column k = false ->
            get_col k (fold_left (apply_crisis pre post) crises df) = get_col k df.
Proof.
  induction crises as [|c t IH]; intros g df L; simpl.
  - auto.
  - destruct (IH _ _ (apply_crisis_rows pre post g df c L)) as (L' & I & O).
    split; [exact L'|]. split.
    + now rewrite I, index_apply_crisis.
    + intros k K. rewrite O by exact K. now apply apply_crisis_other.
Qed.

Lemma label_step_int pre post d r c :
  int_flags r -> int_flags (label_step pre post d r c).
Proof.
  intros (a & b & Ea & Eb). unfold label_step, when, int_flags.
  destruct (in_post post c d), (in_pre pre c d), (in_crisis c d); simpl;
    eauto.
Qed.

Lemma fold_label_step_int pre post d crises : forall r,
  int_flags r -> int_flags (fold_left (label_step pre post d) crises r).
Proof.
  induction crises as [|c t IH]; intros r I; simpl; auto.
  apply IH. now apply label_step_int.
Qed.

Lemma label_row_int pre post crises d : int_flags (label_row pre post crises d).
Proof.
  apply fold_label_step_int. exists 0%Z, 0%Z. split; reflexivity.
Qed.

Lemma col_or_rows (g : option Timestamp -> RowLabel) idx :
  (forall d, int_flags (g d)) ->
  col_or (map (fun d => rl_is_crisis (g d)) idx)
         (map (fun d => rl_is_pre_crisis (g d)) idx)
  = Ok (map (fun d => high_risk (g d)) idx).
Proof.
  intros I. unfold col_or, ints_of, int_col.
  induction idx as [|d t IH]; simpl; [reflexivity|].
  destruct (I d) as (a & b & Ea & Eb). unfold high_risk.
  rewrite Ea, Eb. simpl.
  destruct (rmapM as_int (map (fun d => rl_is_crisis (g d)) t)) as [xs|];
    simpl in *; [|discriminate].
  destruct (rmapM as_int (map (fun d => rl_is_pre_crisis (g d)) t)) as [ys|];
    simpl in *; [|discriminate].
  injection IH as IH. unfold high_risk in IH. now rewrite IH.
Qed.

Lemma buffers_in_range_offsets pre post c :
  buffers_in_range pre post c = true ->
  date_offset (crisis_start c) (- pre) = Ok (pre_start pre c) /\
  date_offset (crisis_end c) post = Ok (post_end post c).
Proof.
  unfold buffers_in_range, date_offset, pre_start, post_end.
  intros H. apply andb_true_iff in H as [-> ->]. now split.
Qed.

Lemma label_crisis_run pre post h df c :
  buffers_in_range pre post c = true ->
  label_crisis pre post (length h) c (h ++ [OFrame df])
  = Ok (tt, h ++ [OFrame (apply_crisis pre post df c)]).
Proof.
  intros B. destruct (buffers_in_range_offsets pre post c B) as [E1 E2].
  unfold label_crisis.
  rewrite (bind_ok _ (run_lift _ _ _ E1)).
  rewrite (bind_ok _ (run_lift _ _ _ E2)).
  rewrite (bind_ok _ (run_get_index h df)).
  do 7 (erewrite bind_ok; [ | apply run_loc_setitem ]).
  rewrite run_loc_setitem. reflexivity.
Qed.

Lemma for_each_label_crisis pre post h crises : forall df,
  forallb (buffers_in_range pre post) crises = true ->
  for_each crises (label_crisis pre post (length h)) (h ++ [OFrame df])
  = Ok (tt, h ++ [OFrame (fold_left (apply_crisis pre post) crises df)]).
Proof.
  induction crises as [|c t IH]; intros df B; simpl; [reflexivity|].
  simpl in B. apply andb_true_iff in B as [Bc Bt].
  rewrite (bind_ok _ (label_crisis_run pre post h df c Bc)). now apply IH.
Qed.

Lemma label_item_run pre post crises h d name src df acc :
  forallb (buffers_in_range pre post) crises = true ->
  frame_at h src df ->
  dict_at h d acc ->
  label_item pre post crises d (name, src) h
  = Ok (tt, update d (ODict (assign name (length h) acc)) h
            ++ [OFrame (labelled pre post crises df)]).
Proof.
  intros B Hf Hd. unfold label_item.
  rewrite (bind_ok _ (run_copy _ _ _ Hf)).
  do 5 (erewrite bind_ok; [ | apply run_setitem_scalar ]).
  erewrite bind_ok; [ | now apply for_each_label_crisis ].
  change (set_col "is_high_risk" _ _) with (init_labels df).
  destruct (fold_apply_crisis pre post crises _ _ (init_labels_rows df))
    as ((_ & _ & E3 & E4) & I & _).
  rewrite I in E3, E4. simpl df_index in E3, E4.
  erewrite bind_ok; [ | apply run_getitem; exact E3 ].
  erewrite bind_ok; [ | apply run_getitem; exact E4 ].
  erewrite bind_ok;
    [ | apply run_lift;
        apply (col_or_rows (label_row pre post crises));
        apply label_row_int ].
  run_set.
  rewrite (run_dict_setitem _ _ _ _ _ _ Hd).
  unfold labelled. now rewrite map_map.
Qed.

(** ** The loop over the items of the input dictionary *)

Section DictLoop.

Variable body : nat -> string * nat -> M unit.
Variable F : DataFrame -> DataFrame.
Variable P : DataFrame -> Prop.

Hypothesis body_run : forall h d name src df acc,
  frame_at h src df -> P df -> dict_at h d acc ->
  body d (name, src) h
  = Ok (tt, update d (ODict (assign name (length h) acc)) h
            ++ [OFrame (F df)]).

Lemma frame_of_at h a df : frame_at h a df -> frame_of h a = df.
Proof. unfold frame_at, frame_of. now intros ->. Qed.

Lemma loop_run : forall items h0 acc fs,
  (forall k b, In (k, b) items -> exists f, frame_at h0 b f /\ P f) ->
  NoDup (map fst acc ++ map fst items) ->
  for_each items (body (length h0)) (h0 ++ ODict acc :: fs)
  = Ok (tt,
        h0 ++ ODict (acc ++ combine (map fst items)
                               (seq (length h0 + 1 + length fs)
                                    (length items)))
           :: fs ++ map (fun it => OFrame (F (frame_of h0 (snd it)))) items).
Proof.
  induction items as [|[name a] t IH]; intros h0 acc fs Hfr Hnd.
  - simpl. now rewrite !app_nil_r.
  - destruct (Hfr name a (or_introl eq_refl)) as (df & Hdf & HP).
    assert (Hdf' : frame_at (h0 ++ ODict acc :: fs) a df).
    { unfold frame_at in *. rewrite nth_error_app1; auto.
      apply nth_error_Some. congruence. }
    assert (Hd : dict_at (h0 ++ ODict acc :: fs) (length h0) acc)
      by apply nth_error_middle.
    cbn [for_each].
    rewrite (bind_ok _ (body_run _ _ name _ _ _ Hdf' HP Hd)).
    rewrite update_middle.
    assert (Hfresh : ~ In name (map fst acc)).
    { intros Hin. apply NoDup_remove_2 in Hnd. apply Hnd.
      apply in_or_app. now left. }
    rewrite (assign_fresh _ _ _ Hfresh).
    rewrite <- app_assoc. cbn [app].
    replace (h0 ++ ODict (acc ++ [(name, length (h0 ++ ODict acc :: fs))])
               :: fs ++ [OFrame (F df)])
      with (h0 ++ ODict (acc ++ [(name, length (h0 ++ ODict acc :: fs))])
              :: (fs ++ [OFrame (F df)])) by reflexivity.
    rewrite IH.
    + rewrite length_app. simpl length. simpl map. simpl combine. simpl snd.
      rewrite (frame_of_at _ _ _ Hdf).
      rewrite <- !app_assoc. cbn [app].
      rewrite length_app. cbn [length].
      replace (length h0 + 1 + (length fs + 1))%nat
        with (S (length h0 + 1 + length fs)) by lia.
      replace (length h0 + S (length fs))%nat
        with (length h0 + 1 + length fs)%nat by lia.
      reflexivity.
    + intros k b Hin. apply (Hfr k b). now right.
    + rewrite map_app. simpl map. rewrite <- app_assoc. simpl app.
      exact Hnd.
Qed.

Lemma dict_loop_run h data items :
  dict_at h data items ->
  NoDup (map fst items) ->
  (forall k b, In (k, b) items -> exists f, frame_at h b f /\ P f) ->
  (d <- dict_new ;; its <- dict_items data ;;
   for_each its (body d) ;; ret d) h
  = Ok (length h, heap_after F h items).
Proof.
  intros Hd Hnd Hfr.
  assert (Ha : dict_new h = Ok (length h, h ++ [ODict []])) by reflexivity.
  rewrite (bind_ok _ Ha).
  assert (Hi : dict_items data (h ++ [ODict []]) = Ok (items, h ++ [ODict []])).
  { apply run_load_dict. unfold dict_at in *. rewrite nth_error_app1; auto.
    apply nth_error_Some. congruence. }
  rewrite (bind_ok _ Hi).
  rewrite (bind_ok _ (loop_run items h [] [] Hfr Hnd)).
  unfold ret, heap_after. cbn [app length].
  replace (length h + 1 + 0)%nat with (S (length h)) by lia.
  reflexivity.
Qed.

End DictLoop.

(** ** What the result dictionary holds *)

Lemma lookup_combine (items : list (string * nat)) : forall s name a,
  lookup name items = Some a ->
  exists i,
    lookup name (combine (map fst items) (seq s (length items))) = Some (s + i)%nat /\
    nth_error items i = Some (name, a).
Proof.
  induction items as [|[k b] t IH]; intros s name a; simpl; [discriminate|].
  destruct (String.eqb name k) eqn:E.
  - intros [= <-]. apply String.eqb_eq in E. subst k.
    exists 0%nat. split; [f_equal; lia | reflexivity].
  - intros L. destruct (IH (S s) _ _ L) as (i & L' & N).
    exists (S i). split; [rewrite L'; f_equal; lia | exact N].
Qed.

Lemma preserved_heap_after F h items : preserved h (heap_after F h items).
Proof.
  intros a o E. unfold heap_after. rewrite nth_error_app1; auto.
  apply nth_error_Some. congruence.
Qed.

Lemma heap_after_entry F h items name a df :
  lookup name items = Some a ->
  frame_at h a df ->
  exists a', entry (heap_after F h items) (length h) name a' (F df) /\
             (length h <= a')%nat.
Proof.
  intros L Hf.
  destruct (lookup_combine items (S (length h)) name a L) as (i & L' & N).
  exists (S (length h) + i)%nat. split; [|lia].
  exists (combine (map fst items) (seq (S (length h)) (length items))).
  split; [apply nth_error_middle|]. split; [exact L'|].
  unfold frame_at, heap_after.
  rewrite nth_error_app2 by lia.
  replace (S (length h) + i - length h)%nat with (S i) by lia.
  cbn [nth_error]. rewrite nth_error_map, N. cbn.
  now rewrite (frame_of_at _ _ _ Hf).
Qed.

(** ** The two stages as heap transformers *)

Lemma compute_features_run parse h data items :
  dict_at h data items ->
  NoDup (map fst items) ->
  (forall k b, In (k, b) items ->
     exists f col, frame_at h b f /\ get_col "Close" f = Some col) ->
  compute_features parse data h = Ok (length h, heap_after (featured parse) h items).
Proof.
  intros Hd Hnd Hfr.
  apply (dict_loop_run (features_item parse) (featured parse)
           (fun f => exists col, get_col "Close" f = Some col)); auto.
  - intros h0 d name src df acc Hf (col & Hc) Hd0.
    now apply features_item_run with (close := col).
  - intros k b Hin. destruct (Hfr k b Hin) as (f & col & ? & ?). eauto.
Qed.

Lemma label_crisis_periods_run pre post crises h data items :
  forallb (buffers_in_range pre post) crises = true ->
  dict_at h data items ->
  NoDup (map fst items) ->
  (forall k b, In (k, b) items -> exists f, frame_at h b f) ->
  label_crisis_periods_with pre post crises data h
  = Ok (length h, heap_after (labelled pre post crises) h items).
Proof.
  intros B Hd Hnd Hfr.
  apply (dict_loop_run (label_item pre post crises) (labelled pre post crises)
           (fun _ => True)); auto.
  - intros h0 d name src df acc Hf _ Hd0. now apply label_item_run.
  - intros k b Hin. destruct (Hfr k b Hin) as (f & ?). eauto.
Qed.

Lemma compute_features_returns parse h data name df :
  prices_input h data name df ->
  returns (compute_features parse data) h name (featured parse df).
Proof.
  intros (items & a & Hd & Hnd & Hfr & L & Hf).
  destruct (heap_after_entry (featured parse) h items name a df L Hf)
    as (a' & He & Hle).
  exists (length h), (heap_after (featured parse) h items), a'.
  split; [now apply compute_features_run|].
  split; [exact He|]. split; [apply preserved_heap_after|]. split; auto.
Qed.

Lemma label_crisis_periods_returns pre post crises h data name df :
  forallb (buffers_in_range pre post) crises = true ->
  frames_input h data name df ->
  returns (label_crisis_periods_with pre post crises data) h name
          (labelled pre post crises df).
Proof.
  intros B (items & a & Hd & Hnd & Hfr & L & Hf).
  destruct (heap_after_entry (labelled pre post crises) h items name a df L Hf)
    as (a' & He & Hle).
  exists (length h), (heap_after (labelled pre post crises) h items), a'.
  split; [now apply label_crisis_periods_run|].
  split; [exact He|]. split; [apply preserved_heap_after|]. split; auto.
Qed.

(** ** Rows of a labelled frame *)

Lemma labelled_index pre post crises df :
  df_index (labelled pre post crises df) = df_index df.
Proof.
  unfold labelled. rewrite index_set_col.
  now destruct (fold_apply_crisis pre post crises _ _ (init_labels_rows df))
    as (_ & I & _).
Qed.

Lemma labelled_rows pre post crises df :
  labels_are (label_row pre post crises) (labelled pre post crises df).
Proof.
  destruct (fold_apply_crisis pre post crises _ _ (init_labels_rows df))
    as ((E1 & E2 & E3 & E4) & I & _).
  unfold labels_are. rewrite labelled_index. unfold labelled.
  rewrite !get_set_other by discriminate.
  rewrite I in E1, E2, E3, E4. simpl df_index in E1, E2, E3, E4.
  auto.
Qed.

Lemma labelled_high_risk pre post crises df :
  get_col "is_high_risk" (labelled pre post crises df)
  = Some (map (fun d => high_risk (label_row pre post crises d)) (df_index df)).
Proof. unfold labelled. now rewrite get_set_same, map_map. Qed.

Lemma labelled_other pre post crises df k :
  label_column k = false ->
  get_col k (labelled pre post crises df) = get_col k df.
Proof.
  intros K.
  destruct (fold_apply_crisis pre post crises _ _ (init_labels_rows df))
    as (_ & _ & O).
  assert (N : k <> "is_high_risk").
  { intros ->. discriminate K. }
  unfold labelled. rewrite get_set_other by exact N.
  rewrite O by exact K. now apply init_labels_other.
Qed.

Lemma cell_map {A} c (f : A -> value) (l : list A) i x df :
  get_col c df = Some (map f l) ->
  nth_error l i = Some x ->
  cell c i df = Some (f x).
Proof.
  intros E N. unfold cell. rewrite E, nth_error_map, N. reflexivity.
Qed.

(** The labels of row [i] of a labelled frame are those of its index
    entry. *)
Lemma labelled_cells pre post crises df i d :
  nth_error (df_index df) i = Some d ->
  let r := label_row pre post crises d in
  let df' := labelled pre post crises df in
  cell "regime" i df' = Some (rl_regime r) /\
  cell "crisis_name" i df' = Some (rl_crisis_name r) /\
  cell "is_crisis" i df' = Some (rl_is_crisis r) /\
  cell "is_pre_crisis" i df' = Some (rl_is_pre_crisis r) /\
  cell "is_high_risk" i df' = Some (high_risk r).
Proof.
  intros N r df'.
  destruct (labelled_rows pre post crises df) as (E1 & E2 & E3 & E4).
  rewrite labelled_index in E1, E2, E3, E4.
  pose proof (labelled_high_risk pre post crises df) as E5.
  repeat split.
  - exact (cell_map _ _ _ _ _ _ E1 N).
  - exact (cell_map _ _ _ _ _ _ E2 N).
  - exact (cell_map _ _ _ _ _ _ E3 N).
  - exact (cell_map _ _ _ _ _ _ E4 N).
  - exact (cell_map _ _ _ _ _ _ E5 N).
Qed.

(** ** One row through the calendar *)

Lemma ts_compare_antisym a b : ts_compare b a = CompOpp (ts_compare a b).
Proof.
  unfold ts_compare.
  rewrite (Z.compare_antisym (ts_year a) (ts_year b)).
  rewrite (Z.compare_antisym (ts_month a) (ts_month b)).
  rewrite (Z.compare_antisym (ts_day a) (ts_day b)).
  rewrite (Z.compare_antisym (ts_nanos a) (ts_nanos b)).
  destruct (ts_year a ?= ts_year b)%Z, (ts_month a ?= ts_month b)%Z,
    (ts_day a ?= ts_day b)%Z, (ts_nanos a ?= ts_nanos b)%Z; reflexivity.
Qed.

Lemma ts_lt_not_le a b : ts_lt a b = negb (ts_le b a).
Proof.
  unfold ts_lt, ts_le. rewrite (ts_compare_antisym a b).
  now destruct (ts_compare a b).
Qed.

(** The masks of one interval: a date of the crisis window is in neither
    buffer. *)
Lemma in_crisis_exclusive pre post c d :
  in_crisis c d = true -> in_pre pre c d = false /\ in_post post c d = false.
Proof.
  unfold in_crisis, in_pre, in_post. destruct d as [d|]; simpl; [|discriminate].
  rewrite !ts_lt_not_le. intros E. apply andb_prop in E as [E1 E2].
  rewrite E1, E2. simpl. now rewrite andb_false_r.
Qed.

Lemma label_step_unmatched pre post d r c :
  matched pre post c d = false -> label_step pre post d r c = r.
Proof.
  unfold matched, label_step, when. rewrite !orb_false_iff.
  now intros [[-> ->] ->].
Qed.

Lemma fold_unmatched pre post d crises : forall r,
  (forall c, In c crises -> matched pre post c d = false) ->
  fold_left (label_step pre post d) crises r = r.
Proof.
  induction crises as [|c t IH]; intros r U; simpl; [reflexivity|].
  rewrite label_step_unmatched by (apply U; now left).
  apply IH. intros c' Hin. apply U. now right.
Qed.

Lemma label_step_matched pre post d r c :
  matched pre post c d = true ->
  rl_regime (label_step pre post d r c) = VStr (written_regime pre post c d) /\
  rl_crisis_name (label_step pre post d r c) = VStr (crisis_name c).
Proof.
  unfold matched, label_step, when, written_regime.
  destruct (in_post post c d), (in_pre pre c d), (in_crisis c d);
    simpl; intros E; try discriminate; auto.
Qed.

Lemma label_row_last_match pre post d before c after :
  matched pre post c d = true ->
  (forall c', In c' after -> matched pre post c' d = false) ->
  rl_regime (label_row pre post (before ++ c :: after) d)
    = VStr (written_regime pre post c d) /\
  rl_crisis_name (label_row pre post (before ++ c :: after) d)
    = VStr (crisis_name c).
Proof.
  intros Hm Hu. unfold label_row.
  rewrite fold_left_app. simpl fold_left.
  rewrite fold_unmatched by exact Hu.
  now apply label_step_matched.
Qed.

(** The flags are never reset. *)
Lemma label_step_keeps_crisis pre post d r c :
  rl_is_crisis r = VInt 1 -> rl_is_crisis (label_step pre post d r c) = VInt 1.
Proof.
  unfold label_step, when.
  destruct (in_post post c d), (in_pre pre c d), (in_crisis c d); simpl; auto.
Qed.

Lemma fold_keeps_crisis pre post d crises : forall r,
  rl_is_crisis r = VInt 1 ->
  rl_is_crisis (fold_left (label_step pre post d) crises r) = VInt 1.
Proof.
  induction crises as [|c t IH]; intros r E; simpl; auto.
  apply IH. now apply label_step_keeps_crisis.
Qed.

Lemma label_row_is_crisis pre post d before c after :
  in_crisis c d = true ->
  rl_is_crisis (label_row pre post (before ++ c :: after) d) = VInt 1.
Proof.
  intros Hc. unfold label_row. rewrite fold_left_app. simpl fold_left.
  apply fold_keeps_crisis.
  destruct (in_crisis_exclusive pre post c d Hc) as [Hp Hq].
  unfold label_step, when. now rewrite Hc, Hp, Hq.
Qed.

Lemma fold_bits pre post d crises : forall r,
  bit (rl_is_crisis r) -> bit (rl_is_pre_crisis r) ->
  bit (rl_is_crisis (fold_left (label_step pre post d) crises r)) /\
  bit (rl_is_pre_crisis (fold_left (label_step pre post d) crises r)).
Proof.
  induction crises as [|c t IH]; intros r B1 B2; simpl; auto.
  apply IH; unfold label_step, when, bit;
    destruct (in_post post c d), (in_pre pre c d), (in_crisis c d); simpl; auto.
Qed.

Lemma fold_no_flags pre post d crises : forall r,
  (forall c, In c crises -> in_crisis c d = false /\ in_pre pre c d = false) ->
  rl_is_crisis (fold_left (label_step pre post d) crises r) = rl_is_crisis r /\
  rl_is_pre_crisis (fold_left (label_step pre post d) crises r)
    = rl_is_pre_crisis r.
Proof.
  induction crises as [|c t IH]; intros r U; simpl; auto.
  destruct (U c (or_introl eq_refl)) as [U1 U2].
  destruct (IH (label_step pre post d r c)) as [E1 E2].
  { intros c' Hin. apply U. now right. }
  rewrite E1, E2. unfold label_step, when. rewrite U1, U2.
  now destruct (in_post post c d).
Qed.

Lemma fold_post_only pre post d crises : forall r,
  (forall c, In c crises -> in_crisis c d = false /\ in_pre pre c d = false) ->
  (exists c, In c crises /\ in_post post c d = true) ->
  rl_regime (fold_left (label_step pre post d) crises r) = VStr "post_crisis".
Proof.
  induction crises as [|c t IH] using rev_ind; intros r U (c0 & Hin & Hp).
  - destruct Hin.
  - rewrite fold_left_app. simpl.
    destruct (U c) as [U1 U2]; [apply in_or_app; right; now left|].
    unfold label_step at 1, when. rewrite U1, U2.
    destruct (in_post post c d) eqn:E; [reflexivity|].
    apply IH.
    + intros c' Hin'. apply U. apply in_or_app. now left.
    + exists c0. split; [|exact Hp].
      apply in_app_or in Hin as [Hin|[<-|[]]]; [exact Hin|congruence].
Qed.

(** ** The example state *)

Lemma example_frames_input :
  frames_input example_heap 1 "SP500" example_frame.
Proof.
  exists [("SP500", 0%nat)], 0%nat. unfold dict_at, frame_at.
  repeat split; try reflexivity.
  - repeat constructor. simpl. tauto.
  - intros k b [[= <- <-]|[]]. now exists example_frame.
Qed.

Lemma example_prices_input :
  prices_input example_heap 1 "SP500" example_frame.
Proof.
  exists [("SP500", 0%nat)], 0%nat. unfold dict_at, frame_at.
  repeat split; try reflexivity.
  - repeat constructor. simpl. tauto.
  - intros k b [[= <- <-]|[]]. exists example_frame. eexists. split; reflexivity.
Qed.

(* ================================================================== *)
(** * Regime labelling *)

(** C1.  Let every buffer bound of the calendar be a representable
    timestamp (if one is not, the call raises [OutOfBoundsDatetime]).
    A row whose date lies in the crisis window [start, end] of a
    calendar entry has [is_crisis = 1] after labelling.  Its regime is
    "crisis" and its crisis name that of the entry unless a later entry
    matches the date with one of its masks; in every case the regime and
    the name are those written by the last entry of the calendar that
    matches the date, and within that entry by the last matching mask in
    the order crisis, pre, post. *)
Theorem crisis_window_last_write_wins :
  forall pre post h data name df i d before c after,
    forallb (buffers_in_range pre post) (before ++ c :: after) = true ->
    frames_input h data name df ->
    nth_error (df_index df) i = Some d ->
    in_crisis c d = true ->
    exists df',
      returns (label_crisis_periods_with pre post (before ++ c :: after) data)
              h name df' /\
      cell "is_crisis" i df' = Some (VInt 1) /\
      ((forall c', In c' after -> matched pre post c' d = false) ->
       cell "regime" i df' = Some (VStr "crisis") /\
       cell "crisis_name" i df' = Some (VStr (crisis_name c))) /\
      (forall mid c' after',
         after = mid ++ c' :: after' ->
         matched pre post c' d = true ->
         (forall c'', In c'' after' -> matched pre post c'' d = false) ->
         cell "regime" i df' = Some (VStr (written_regime pre post c' d)) /\
         cell "crisis_name" i df' = Some (VStr (crisis_name c'))).
Proof.
  intros pre post h data name df i d before c after B Hin Hd Hc.
  exists (labelled pre post (before ++ c :: after) df).
  split; [now apply label_crisis_periods_returns|].
  destruct (labelled_cells pre post (before ++ c :: after) df i d Hd)
    as (E1 & E2 & E3 & _).
  split; [|split].
  - rewrite E3. f_equal. now apply label_row_is_crisis.
  - intros Hu.
    assert (Hm : matched pre post c d = true).
    { unfold matched. now rewrite Hc. }
    destruct (label_row_last_match pre post d before c after Hm Hu) as [R N].
    rewrite E1, E2, R, N. unfold written_regime.
    destruct (in_crisis_exclusive pre post c d Hc) as [-> ->]. auto.
  - intros mid c' after' -> Hm Hu.
    replace (before ++ c :: mid ++ c' :: after')
      with ((before ++ c :: mid) ++ c' :: after') in *
      by (now rewrite <- app_assoc).
    destruct (label_row_last_match pre post d (before ++ c :: mid) c' after'
                Hm Hu) as [R N].
    rewrite E1, E2, R, N. auto.
Qed.

Lemma crisis_window_last_write_wins_witness :
  exists df',
    returns (label_crisis_periods 6 6 1) example_heap "SP500" df' /\
    cell "is_crisis" 1 df' = Some (VInt 1) /\
    cell "regime" 1 df' = Some (VStr "crisis") /\
    cell "crisis_name" 1 df' = Some (VStr "covid_crash").
Proof.
  destruct (crisis_window_last_write_wins 6 6 example_heap 1 "SP500"
              example_frame 1 (Some (date 2020 3 2))
              [ mkCrisis "dotcom_bubble" (date 2000 3 1) (date 2002 10 31);
                mkCrisis "global_financial_crisis" (date 2007 10 1)
                         (date 2009 3 31);
                mkCrisis "european_debt_crisis" (date 2011 7 1)
                         (date 2012 12 31) ]
              (mkCrisis "covid_crash" (date 2020 2 15) (date 2020 4 30)) []
              eq_refl example_frames_input eq_refl eq_refl)
    as (df' & R & E1 & E2 & _).
  exists df'. split; [exact R|]. split; [exact E1|].
  apply E2. intros c' [].
Defined.

(** C8.  Let every buffer bound of the calendar be a representable
    timestamp (if one is not, the call raises [OutOfBoundsDatetime]).
    In every row of a labelled frame the two flags are 0 or 1 and
    [is_high_risk] is their disjunction.  A row that only post-crisis masks
    select has regime "post_crisis" and [is_high_risk = 0]. *)
Theorem high_risk_is_crisis_or_pre :
  forall pre post crises h data name df i d,
    forallb (buffers_in_range pre post) crises = true ->
    frames_input h data name df ->
    nth_error (df_index df) i = Some d ->
    exists df' a b,
      returns (label_crisis_periods_with pre post crises data) h name df' /\
      cell "is_crisis" i df' = Some (VInt a) /\
      cell "is_pre_crisis" i df' = Some (VInt b) /\
      (a = 0 \/ a = 1)%Z /\ (b = 0 \/ b = 1)%Z /\
      cell "is_high_risk" i df' = Some (VInt (Z.lor a b)) /\
      ((forall c, In c crises ->
          in_crisis c d = false /\ in_pre pre c d = false) ->
       (exists c, In c crises /\ in_post post c d = true) ->
       cell "regime" i df' = Some (VStr "post_crisis") /\
       cell "is_high_risk" i df' = Some (VInt 0)).
Proof.
  intros pre post crises h data name df i d B Hin Hd.
  destruct (labelled_cells pre post crises df i d Hd)
    as (E1 & _ & E3 & E4 & E5).
  destruct (fold_bits pre post d crises normal_row) as [B1 B2];
    [now left | now left |].
  fold (label_row pre post crises d) in B1, B2.
  assert (exists a b, rl_is_crisis (label_row pre post crises d) = VInt a /\
                      rl_is_pre_crisis (label_row pre post crises d) = VInt b /\
                      (a = 0 \/ a = 1)%Z /\ (b = 0 \/ b = 1)%Z)
    as (a & b & Ea & Eb & Ha & Hb).
  { destruct B1 as [B1|B1], B2 as [B2|B2]; rewrite B1, B2;
      do 2 eexists; repeat split; auto. }
  exists (labelled pre post crises df), a, b.
  split; [now apply label_crisis_periods_returns|].
  rewrite E1, E3, E4, E5. unfold high_risk. rewrite Ea, Eb.
  repeat split; auto.
  - f_equal. now apply fold_post_only.
  - destruct (fold_no_flags pre post d crises normal_row H) as [F1 F2].
    fold (label_row pre post crises d) in F1, F2.
    rewrite Ea in F1. rewrite Eb in F2. simpl in F1, F2.
    injection F1 as ->. injection F2 as ->. reflexivity.
Qed.

Lemma high_risk_is_crisis_or_pre_witness :
  exists df',
    returns (label_crisis_periods 6 6 1) example_heap "SP500" df' /\
    cell "regime" 2 df' = Some (VStr "post_crisis") /\
    cell "is_high_risk" 2 df' = Some (VInt 0).
Proof.
  destruct (high_risk_is_crisis_or_pre 6 6 CRISES example_heap 1 "SP500"
              example_frame 2 (Some (date 2020 6 1))
              eq_refl example_frames_input eq_refl)
    as (df' & a & b & R & _ & _ & _ & _ & _ & P).
  exists df'. split; [exact R|]. apply P.
  - intros c Hin. simpl in Hin.
    destruct Hin as [<-|[<-|[<-|[<-|[]]]]]; split; reflexivity.
  - exists (mkCrisis "covid_crash" (date 2020 2 15) (date 2020 4 30)).
    split; [simpl; tauto | reflexivity].
Defined.

(** A later buffer overwrites a crisis window: with a pre-crisis buffer of
    60 months, 2002-10-15 is in the dot-com window and in the buffer of the
    next entry, which is processed later. *)
Example later_buffer_overwrites :
  let df' := labelled 60 6 CRISES example_frame in
  cell "regime" 0 df' = Some (VStr "pre_crisis") /\
  cell "crisis_name" 0 df' = Some (VStr "global_financial_crisis") /\
  cell "is_crisis" 0 df' = Some (VInt 1) /\
  cell "is_high_risk" 0 df' = Some (VInt 1).
Proof. repeat split; reflexivity. Qed.

(** ** Malformed calendar entries *)

Lemma ts_le_spec a b :
  ts_le a b = true <->
  (ts_year a < ts_year b \/
   (ts_year a = ts_year b /\
    (ts_month a < ts_month b \/
     (ts_month a = ts_month b /\
      (ts_day a < ts_day b \/
       (ts_day a = ts_day b /\ ts_nanos a <= ts_nanos b))))))%Z.
Proof.
  unfold ts_le, ts_compare.
  destruct (Z.compare_spec (ts_year a) (ts_year b));
    [ destruct (Z.compare_spec (ts_month a) (ts_month b));
      [ destruct (Z.compare_spec (ts_day a) (ts_day b));
        [ destruct (Z.compare_spec (ts_nanos a) (ts_nanos b)) | | ] | | ] | | ];
    split; intros; try discriminate; try reflexivity; try lia.
Qed.

Lemma ts_le_trans a b c :
  ts_le a b = true -> ts_le b c = true -> ts_le a c = true.
Proof. rewrite !ts_le_spec. lia. Qed.





(* ================================================================== *)
(** * Inputs are left alone *)

(** C10.  Both stages return a new dictionary of new frames: the address
    returned and the addresses it binds are not addresses of the heap
    before the call, and every object of that heap, the input dictionary
    and the input frames among them, is unchanged after it.  A labelled
    frame has the index of its input and, in every column other than the
    five regime columns, the cells of its input.  For the labelling stage
    this is the call that returns: every buffer bound of the calendar is
    a representable timestamp (if one is not, the call raises
    [OutOfBoundsDatetime] and returns no dictionary). *)
Theorem stages_do_not_mutate_inputs :
  forall parse pre post crises h data name df,
    (prices_input h data name df ->
     exists out h' a' df',
       compute_features parse data h = Ok (out, h') /\
       entry h' out name a' df' /\
       nth_error h out = None /\ nth_error h a' = None /\
       (forall a o, nth_error h a = Some o -> nth_error h' a = Some o)) /\
    (forallb (buffers_in_range pre post) crises = true ->
     frames_input h data name df ->
     exists out h' a' df',
       label_crisis_periods_with pre post crises data h = Ok (out, h') /\
       entry h' out name a' df' /\
       nth_error h out = None /\ nth_error h a' = None /\
       (forall a o, nth_error h a = Some o -> nth_error h' a = Some o) /\
       df_index df' = df_index df /\
       (forall c, label_column c = false -> get_col c df' = get_col c df) /\
       get_col "Close" df' = get_col "Close" df /\
       get_col "log_return" df' = get_col "log_return" df /\
       get_col "vol_30d" df' = get_col "vol_30d" df /\
       get_col "peak" df' = get_col "peak" df /\
       get_col "drawdown" df' = get_col "drawdown" df).
Proof.
  intros parse pre post crises h data name df. split; [intros Hin | intros B Hin].
  - destruct (compute_features_returns parse h data name df Hin)
      as (out & h' & a' & R & E & P & L1 & L2).
    exists out, h', a', (featured parse df).
    repeat split; auto; now apply nth_error_None.
  - destruct (label_crisis_periods_returns pre post crises h data name df B Hin)
      as (out & h' & a' & R & E & P & L1 & L2).
    exists out, h', a', (labelled pre post crises df).
    split; [exact R|]. split; [exact E|].
    split; [now apply nth_error_None|]. split; [now apply nth_error_None|].
    split; [exact P|]. split; [apply labelled_index|].
    split; [intros c K; now apply labelled_other|].
    repeat split; now apply labelled_other.
Qed.

Lemma stages_do_not_mutate_inputs_witness :
  (exists out h' a' df',
     compute_features (fun _ => NaN) 1 example_heap = Ok (out, h') /\
     entry h' out "SP500" a' df' /\
     nth_error h' 0 = Some (OFrame example_frame) /\
     nth_error h' 1 = Some (ODict [("SP500", 0%nat)])) /\
  (exists out h' a' df',
     label_crisis_periods 6 6 1 example_heap = Ok (out, h') /\
     entry h' out "SP500" a' df' /\
     nth_error h' 0 = Some (OFrame example_frame) /\
     nth_error h' 1 = Some (ODict [("SP500", 0%nat)]) /\
     get_col "Close" df' = get_col "Close" example_frame).
Proof.
  destruct (stages_do_not_mutate_inputs (fun _ => NaN) 6 6 CRISES
              example_heap 1 "SP500" example_frame) as [F L].
  split.
  - destruct (F example_prices_input) as (out & h' & a' & df' & R & E & _ & _ & P).
    exists out, h', a', df'. repeat split; auto; apply P; reflexivity.
  - destruct (L eq_refl example_frames_input)
      as (out & h' & a' & df' & R & E & _ & _ & P & _ & _ & C & _).
    exists out, h', a', df'. repeat split; auto; apply P; reflexivity.
Defined.

(* ================================================================== *)
(** * Features *)

(** ** The columns of a featured frame *)

Lemma fcol_set_same c xs df : fcol c (set_col c (float_col xs) df) = Some xs.
Proof. unfold fcol. now rewrite get_set_same, floats_of_float_col. Qed.

Lemma fcol_set_other c c' col df :
  c <> c' -> fcol c (set_col c' col df) = fcol c df.
Proof. intros N. unfold fcol. now rewrite get_set_other. Qed.

Ltac fcols :=
  unfold featured;
  repeat first
    [ apply fcol_set_same
    | rewrite fcol_set_other by discriminate ].


Lemma featured_log_return parse df :
  fcol "log_return" (featured parse df)
  = Some (diff (map np_log (prices_of parse df))).
Proof. fcols. Qed.

Lemma featured_vol parse df :
  fcol "vol_30d" (featured parse df)
  = Some (rolling_std 30 (diff (map np_log (prices_of parse df)))).
Proof. fcols. Qed.

Lemma featured_peak parse df :
  fcol "peak" (featured parse df) = Some (cummax (prices_of parse df)).
Proof. fcols. Qed.


(** ** Logarithms and differences *)

Ltac rdec :=
  repeat match goal with
  | |- context [Rlt_dec ?a ?b] => destruct (Rlt_dec a b); try lra
  | |- context [Rle_dec ?a ?b] => destruct (Rle_dec a b); try lra
  | |- context [Req_dec_T ?a ?b] => destruct (Req_dec_T a b); try lra
  end.

Lemma np_log_pos x : (0 < x)%R -> np_log (Fin x) = Fin (ln x).
Proof. intros H. unfold np_log. rdec. reflexivity. Qed.

Lemma np_log_zero : np_log (Fin 0) = NInf.
Proof. unfold np_log. rdec. reflexivity. Qed.


(** The four outcomes of [np.log]. *)
Lemma np_log_cases f :
  (missing_or_negative f /\ np_log f = NaN) \/
  (f = Fin 0 /\ np_log f = NInf) \/
  (f = PInf /\ np_log f = PInf) \/
  (exists x, f = Fin x /\ (0 < x)%R /\ np_log f = Fin (ln x)).
Proof.
  destruct f as [| | |x]; simpl; auto.
  destruct (Rlt_dec 0 x).
  - right. right. right. exists x. auto.
  - destruct (Req_dec_T x 0).
    + subst. right. left. auto.
    + left. split; [lra|reflexivity].
Qed.

Lemma length_diff_from xs : forall prev, length (diff_from prev xs) = length xs.
Proof. induction xs; simpl; auto. Qed.

Lemma length_diff xs : length (diff xs) = length xs.
Proof. destruct xs; simpl; auto using length_diff_from. Qed.

Lemma nth_error_diff_from xs : forall prev i a b,
  nth_error (prev :: xs) i = Some a ->
  nth_error xs i = Some b ->
  nth_error (diff_from prev xs) i = Some (fsub b a).
Proof.
  induction xs as [|x t IH]; intros prev [|i] a b; simpl; try discriminate.
  - now intros [= ->] [= ->].
  - intros Ha Hb. now apply IH.
Qed.

Lemma nth_error_diff xs i a b :
  nth_error xs i = Some a ->
  nth_error xs (S i) = Some b ->
  nth_error (diff xs) (S i) = Some (fsub b a).
Proof.
  destruct xs as [|x t]; simpl; [now destruct i|].
  intros Ha Hb. now apply nth_error_diff_from.
Qed.

Lemma nth_error_diff_0 xs : xs <> [] -> nth_error (diff xs) 0 = Some NaN.
Proof. destruct xs; simpl; congruence. Qed.

(** When the difference of two logarithms is NaN. *)
Lemma log_diff_missing p q :
  isna (fsub (np_log q) (np_log p)) = true <->
  (missing_or_negative p \/ missing_or_negative q \/
   (p = Fin 0 /\ q = Fin 0) \/ (p = PInf /\ q = PInf)).
Proof.
  destruct (np_log_cases p) as [[Hp ->]|[[-> ->]|[[-> ->]|(x & -> & Hx & ->)]]];
  destruct (np_log_cases q) as [[Hq ->]|[[-> ->]|[[-> ->]|(y & -> & Hy & ->)]]];
  simpl; split; intros H; auto; try discriminate;
    repeat match goal with
    | H : _ \/ _ |- _ => destruct H
    | H : _ /\ _ |- _ => destruct H
    | H : Fin _ = Fin _ |- _ => injection H as H
    | H : missing_or_negative _ |- _ => simpl in H
    end; try discriminate; try tauto; try lra.
Qed.

(** C2, as stated, fails: a zero price next to a positive one gives an
    infinite log return, which is not a missing value.  In the example
    series the price of row 3 is 0 and that of row 4 is 110;
    [log_return[4]] is [+inf]. *)
Lemma zero_price_log_return_not_missing :
  exists df' lr,
    returns (compute_features (fun _ => NaN) 1) example_heap "SP500" df' /\
    fcol "log_return" df' = Some lr /\
    nth_error lr 4 = Some PInf /\
    ~ log_return_missing_iff (prices_of (fun _ => NaN) example_frame) lr.
Proof.
  exists (featured (fun _ => NaN) example_frame).
  exists (diff (map np_log (prices_of (fun _ => NaN) example_frame))).
  split; [apply compute_features_returns, example_prices_input|].
  split; [apply featured_log_return|].
  assert (E : nth_error (diff (map np_log (prices_of (fun _ => NaN)
                                            example_frame))) 4 = Some PInf).
  { rewrite (nth_error_diff _ 3 (np_log (Fin 0)) (np_log (Fin 110)))
      by reflexivity.
    rewrite np_log_zero, np_log_pos by lra. reflexivity. }
  split; [exact E|].
  intros C.
  destruct (C 3%nat (Fin 0) (Fin 110) PInf eq_refl eq_refl E) as [_ C2].
  assert (F : isna PInf = true) by (apply C2; left; simpl; lra).
  discriminate F.
Qed.

(** C2, amended.  [log_return[0]] is missing in every series that has a
    row.  For [i >= 1], [log_return[i]] is the difference of the
    logarithms of [price[i]] and [price[i-1]]; it is missing exactly when
    one of the two prices is missing or negative, or both are zero, or
    both are [+inf].  A zero price next to a positive one gives an
    infinite, not a missing, value.  When both prices are positive and
    finite it is [ln(price[i]) - ln(price[i-1])]. *)
Theorem log_return_defined_iff :
  forall parse h data name df,
    prices_input h data name df ->
    exists df' lr,
      returns (compute_features parse data) h name df' /\
      fcol "log_return" df' = Some lr /\
      length lr = length (prices_of parse df) /\
      (prices_of parse df <> [] -> nth_error lr 0 = Some NaN) /\
      (forall i p q,
         nth_error (prices_of parse df) i = Some p ->
         nth_error (prices_of parse df) (S i) = Some q ->
         exists r,
           nth_error lr (S i) = Some r /\
           r = fsub (np_log q) (np_log p) /\
           (isna r = true <->
            (missing_or_negative p \/ missing_or_negative q \/
             (p = Fin 0 /\ q = Fin 0) \/ (p = PInf /\ q = PInf))) /\
           (forall x y, p = Fin x -> q = Fin y -> (0 < x)%R -> (0 < y)%R ->
                        r = Fin (ln y - ln x))).
Proof.
  intros parse h data name df Hin.
  exists (featured parse df), (diff (map np_log (prices_of parse df))).
  split; [now apply compute_features_returns|].
  split; [apply featured_log_return|].
  split; [now rewrite length_diff, length_map|].
  split.
  { intros Hne. apply nth_error_diff_0.
    destruct (prices_of parse df); [congruence | discriminate]. }
  intros i p q Hp Hq.
  exists (fsub (np_log q) (np_log p)).
  split.
  { apply nth_error_diff; rewrite nth_error_map;
      [now rewrite Hp | now rewrite Hq]. }
  split; [reflexivity|].
  split; [apply log_diff_missing|].
  intros x y -> -> Hx Hy. rewrite !np_log_pos by assumption. reflexivity.
Qed.

Lemma log_return_defined_iff_witness :
  exists df' lr,
    returns (compute_features (fun _ => NaN) 1) example_heap "SP500" df' /\
    fcol "log_return" df' = Some lr /\
    nth_error lr 0 = Some NaN /\
    nth_error lr 1 = Some (Fin (ln 105 - ln 100)).
Proof.
  destruct (log_return_defined_iff (fun _ => NaN) example_heap 1 "SP500"
              example_frame example_prices_input)
    as (df' & lr & R & E & _ & E0 & V).
  exists df', lr. split; [exact R|]. split; [exact E|].
  split; [apply E0; discriminate|].
  destruct (V 0%nat (Fin 100) (Fin 105) eq_refl eq_refl)
    as (r & E1 & _ & _ & W).
  rewrite E1. f_equal. apply W; try reflexivity; lra.
Defined.

(** ** The running peak *)

Lemma fle_refl a : isna a = false -> fle a a.
Proof. destruct a; simpl; try discriminate; auto; lra. Qed.

Lemma fle_trans a b c : fle a b -> fle b c -> fle a c.
Proof. destruct a, b, c; simpl; try tauto; lra. Qed.

Lemma fle_notna a b : fle a b -> isna a = false /\ isna b = false.
Proof. destruct a, b; simpl; tauto. Qed.

Lemma fmax_cases a b :
  isna a = false -> isna b = false -> fmax a b = a \/ fmax a b = b.
Proof.
  destruct a, b; simpl; try discriminate; auto.
  intros _ _. destruct (Rle_dec x x0); auto.
Qed.

Lemma fmax_ge a b :
  isna a = false -> isna b = false -> fle a (fmax a b) /\ fle b (fmax a b).
Proof.
  destruct a, b; simpl; try discriminate; auto; try (split; auto; lra).
  intros _ _. destruct (Rle_dec x x0); simpl; lra.
Qed.

Lemma fill_na_notna xs y : In y (fill_na NInf xs) -> isna y = false.
Proof.
  unfold fill_na. rewrite in_map_iff. intros (x & <- & _).
  now destruct x.
Qed.

Lemma nth_error_fill_na xs i p :
  nth_error xs i = Some p ->
  nth_error (fill_na NInf xs) i = Some (if isna p then NInf else p).
Proof. intros E. unfold fill_na. now rewrite nth_error_map, E. Qed.

(** The accumulated maximum is one of the values seen and bounds them
    all. *)
Lemma accumulate_max ys : forall acc i m,
  isna acc = false ->
  (forall y, In y ys -> isna y = false) ->
  nth_error (accumulate fmax acc ys) i = Some m ->
  (m = acc \/ exists j, (j <= i)%nat /\ nth_error ys j = Some m) /\
  fle acc m /\
  (forall j y, (j <= i)%nat -> nth_error ys j = Some y -> fle y m).
Proof.
  induction ys as [|y t IH]; intros acc i m Ha Hys; [now destruct i|].
  assert (Hy : isna y = false) by (apply Hys; now left).
  destruct (fmax_ge acc y Ha Hy) as [G1 G2].
  destruct (fmax_cases acc y Ha Hy) as [C|C].
  - destruct i as [|i]; simpl.
    + intros [= <-]. split; [left; exact C|]. split; [exact G1|].
      intros [|j] y' Hj; [|lia]. simpl. now intros [= <-].
    + intros E. destruct (IH (fmax acc y) i m) as (W & B & U); auto.
      { now apply fle_notna in G1. }
      { intros y' Hin. apply Hys. now right. }
      split.
      * destruct W as [->|(j & Hj & Ej)]; [left; exact C|].
        right. exists (S j). split; [lia|exact Ej].
      * split; [exact (fle_trans _ _ _ G1 B)|].
        intros [|j] y' Hj; simpl.
        -- intros [= <-]. exact (fle_trans _ _ _ G2 B).
        -- apply U. lia.
  - destruct i as [|i]; simpl.
    + intros [= <-]. split; [right; exists 0%nat; split; [lia|now rewrite C]|].
      split; [exact G1|].
      intros [|j] y' Hj; [|lia]. simpl. now intros [= <-].
    + intros E. destruct (IH (fmax acc y) i m) as (W & B & U); auto.
      { now apply fle_notna in G1. }
      { intros y' Hin. apply Hys. now right. }
      split.
      * right. destruct W as [->|(j & Hj & Ej)].
        -- exists 0%nat. split; [lia|now rewrite C].
        -- exists (S j). split; [lia|exact Ej].
      * split; [exact (fle_trans _ _ _ G1 B)|].
        intros [|j] y' Hj; simpl.
        -- intros [= <-]. exact (fle_trans _ _ _ G2 B).
        -- apply U. lia.
Qed.

Lemma maximum_accumulate_max ys i m :
  (forall y, In y ys -> isna y = false) ->
  nth_error (maximum_accumulate ys) i = Some m ->
  (exists j, (j <= i)%nat /\ nth_error ys j = Some m) /\
  (forall j y, (j <= i)%nat -> nth_error ys j = Some y -> fle y m).
Proof.
  destruct ys as [|y0 t]; [now destruct i|]. intros Hys.
  assert (H0 : isna y0 = false) by (apply Hys; now left).
  destruct i as [|i]; simpl.
  - intros [= <-]. split; [exists 0%nat; auto|].
    intros [|j] y Hj; [|lia]. simpl. intros [= <-]. now apply fle_refl.
  - intros E.
    destruct (accumulate_max t y0 i m H0) as (W & B & U); auto.
    { intros y Hin. apply Hys. now right. }
    split.
    + destruct W as [->|(j & Hj & Ej)].
      * exists 0%nat. split; [lia|reflexivity].
      * exists (S j). split; [lia|exact Ej].
    + intros [|j] y Hj; simpl.
      * now intros [= <-].
      * apply U. lia.
Qed.

Lemma length_accumulate op ys : forall acc,
  length (accumulate op acc ys) = length ys.
Proof. induction ys; simpl; auto. Qed.

Lemma length_maximum_accumulate ys :
  length (maximum_accumulate ys) = length ys.
Proof. destruct ys; simpl; auto using length_accumulate. Qed.

Lemma nth_error_restore_na orig : forall res i o r,
  nth_error orig i = Some o ->
  nth_error res i = Some r ->
  nth_error (restore_na orig res) i = Some (if isna o then NaN else r).
Proof.
  induction orig as [|o' t IH]; intros [|r' res] [|i] o r; simpl;
    try discriminate.
  - now intros [= ->] [= ->].
  - apply IH.
Qed.

Lemma length_restore_na orig : forall res,
  length orig = length res -> length (restore_na orig res) = length orig.
Proof.
  induction orig as [|o t IH]; intros [|r res]; simpl; try discriminate; auto.
Qed.

Lemma length_cummax xs : length (cummax xs) = length xs.
Proof.
  unfold cummax. apply length_restore_na.
  rewrite length_maximum_accumulate. unfold fill_na. now rewrite length_map.
Qed.

(** At a row with a price the peak is the running maximum; at a row
    without one it is missing. *)
Lemma nth_error_cummax xs i p :
  nth_error xs i = Some p ->
  exists m,
    nth_error (cummax xs) i = Some m /\
    (isna p = true -> m = NaN) /\
    (isna p = false -> is_running_max xs i m).
Proof.
  intros Hp.
  assert (Hl : (i < length (maximum_accumulate (fill_na NInf xs)))%nat).
  { rewrite length_maximum_accumulate. unfold fill_na. rewrite length_map.
    apply nth_error_Some. congruence. }
  destruct (nth_error (maximum_accumulate (fill_na NInf xs)) i) as [m|] eqn:Em;
    [|apply nth_error_None in Em; lia].
  exists (if isna p then NaN else m).
  split; [unfold cummax; now apply nth_error_restore_na|].
  split; [now intros ->|]. intros Hna. rewrite Hna.
  destruct (maximum_accumulate_max (fill_na NInf xs) i m
              (fill_na_notna xs) Em) as ((j & Hj & Ej) & U).
  assert (Hpm : fle p m).
  { apply (U i p (le_n i)). rewrite (nth_error_fill_na xs i p Hp).
    now rewrite Hna. }
  split.
  - destruct (nth_error xs j) as [pj|] eqn:Epj.
    + rewrite (nth_error_fill_na xs j pj Epj) in Ej.
      destruct (isna pj) eqn:Ena.
      * injection Ej as <-. exists i. split; [lia|].
        destruct p; simpl in *; try discriminate; tauto.
      * injection Ej as <-. exists j. auto.
    + unfold fill_na in Ej. rewrite nth_error_map, Epj in Ej. discriminate.
  - intros k pk Hk Epk Hnk. apply (U k pk Hk).
    rewrite (nth_error_fill_na xs k pk Epk). now rewrite Hnk.
Qed.

(** C4, as stated, fails: the peak is not carried forward over a missing
    price.  In the example series the price of row 2 is missing and the
    maximum of the prices of rows 0 to 2 is 105; [peak[2]] is missing. *)
Lemma peak_missing_at_missing_price :
  exists df' peak,
    returns (compute_features (fun _ => NaN) 1) example_heap "SP500" df' /\
    fcol "peak" df' = Some peak /\
    nth_error peak 2 = Some NaN /\
    is_running_max (prices_of (fun _ => NaN) example_frame) 2 (Fin 105) /\
    ~ peak_carried_forward (prices_of (fun _ => NaN) example_frame) peak.
Proof.
  exists (featured (fun _ => NaN) example_frame).
  exists (cummax (prices_of (fun _ => NaN) example_frame)).
  split; [apply compute_features_returns, example_prices_input|].
  split; [apply featured_peak|].
  assert (E : nth_error (cummax (prices_of (fun _ => NaN) example_frame)) 2
              = Some NaN).
  { destruct (nth_error_cummax (prices_of (fun _ => NaN) example_frame) 2 NaN
                eq_refl) as (m & Em & Hm & _).
    now rewrite Em, (Hm eq_refl). }
  assert (M : is_running_max (prices_of (fun _ => NaN) example_frame) 2
                (Fin 105)).
  { split.
    - exists 1%nat. repeat split. lia.
    - intros [|[|[|j]]] p Hj; simpl; try lia; intros [= <-]; simpl;
        try discriminate; intros _; lra. }
  split; [exact E|]. split; [exact M|].
  intros C. rewrite (C 2%nat (Fin 105) M) in E. discriminate E.
Qed.

(** C4, amended.  At every row [i] whose price is not missing,
    [peak[i]] is the maximum of the non-missing prices of rows [0..i];
    missing prices in between do not disturb it.  At a row whose price is
    missing, [peak[i]] is missing: the previous peak is not carried
    forward to that row. *)
Theorem peak_is_running_max :
  forall parse h data name df i p,
    prices_input h data name df ->
    nth_error (prices_of parse df) i = Some p ->
    exists df' peak m,
      returns (compute_features parse data) h name df' /\
      fcol "peak" df' = Some peak /\
      length peak = length (prices_of parse df) /\
      nth_error peak i = Some m /\
      (isna p = false -> is_running_max (prices_of parse df) i m) /\
      (isna p = true -> m = NaN).
Proof.
  intros parse h data name df i p Hin Hp.
  destruct (nth_error_cummax (prices_of parse df) i p Hp) as (m & Em & H1 & H2).
  exists (featured parse df), (cummax (prices_of parse df)), m.
  split; [now apply compute_features_returns|].
  split; [apply featured_peak|].
  split; [apply length_cummax|]. auto.
Qed.

Lemma peak_is_running_max_witness :
  exists df' peak m,
    returns (compute_features (fun _ => NaN) 1) example_heap "SP500" df' /\
    fcol "peak" df' = Some peak /\
    nth_error peak 5 = Some m /\
    is_running_max (prices_of (fun _ => NaN) example_frame) 5 m.
Proof.
  destruct (peak_is_running_max (fun _ => NaN) example_heap 1 "SP500"
              example_frame 5 (Fin 90) example_prices_input eq_refl)
    as (df' & peak & m & R & E & _ & Em & H1 & _).
  exists df', peak, m. repeat split; auto; now apply H1.
Defined.

(** ** Drawdown *)



Lemma fin_sign_pos y : (0 < y)%R -> fin_sign y = Gt.
Proof. intros H. unfold fin_sign. rdec. reflexivity. Qed.







Lemma coerce_float_col parse xs :
  map (coerce_numeric parse) (float_col xs) = xs.
Proof. unfold float_col. induction xs; simpl; congruence. Qed.

Lemma prices_of_numeric parse df xs :
  get_col "Close" df = Some (float_col xs) -> prices_of parse df = xs.
Proof. intros E. unfold prices_of. rewrite E. apply coerce_float_col. Qed.



(** ** No exception on numeric edge cases *)




(** ** Rolling volatility *)

Lemma nth_error_rolling_std w xs i :
  (i < length xs)%nat ->
  nth_error (rolling_std w xs) i = Some (roll_std_at w xs i).
Proof.
  intros H. unfold rolling_std.
  rewrite nth_error_map, nth_error_seq.
  apply Nat.ltb_lt in H. now rewrite H.
Qed.

Lemma length_rolling_std w xs : length (rolling_std w xs) = length xs.
Proof. unfold rolling_std. now rewrite length_map, length_seq. Qed.

Lemma length_observed l : (length (observed l) <= length l)%nat.
Proof. induction l as [|[x|] t IH]; simpl; lia. Qed.

Lemma length_observed_lt l : In None l -> (length (observed l) < length l)%nat.
Proof.
  induction l as [|[x|] t IH]; simpl; intros H.
  - destruct H.
  - destruct H as [H|H]; [discriminate|]. specialize (IH H). lia.
  - pose proof (length_observed t). lia.
Qed.

Lemma observed_some xs : observed (map Some xs) = xs.
Proof. induction xs; simpl; congruence. Qed.

Lemma prep_values_fin xs : prep_values (map Fin xs) = map Some xs.
Proof. unfold prep_values. rewrite map_map. reflexivity. Qed.

Lemma length_window_at {A} w i (l : list A) :
  (length (window_at w i l) <= w)%nat /\
  (length (window_at w i l) <= i + 1)%nat.
Proof.
  unfold window_at. pose proof (firstn_le_length (i + 1 - (i + 1 - w))
                                  (skipn (i + 1 - w) l)). lia.
Qed.

Lemma in_window_at {A} w i j (l : list A) v :
  (i + 1 - w <= j)%nat -> (j <= i)%nat ->
  nth_error l j = Some v ->
  In v (window_at w i l).
Proof.
  intros H1 H2 E. apply (nth_error_In _ (j - (i + 1 - w))).
  unfold window_at. rewrite nth_error_firstn.
  assert (L : (j - (i + 1 - w) <? i + 1 - (i + 1 - w))%nat = true)
    by (apply Nat.ltb_lt; lia).
  rewrite L, nth_error_skipn.
  now replace (i + 1 - w + (j - (i + 1 - w)))%nat with j by lia.
Qed.

Lemma window_at_prep w i xs :
  window_at w i (prep_values xs) = prep_values (window_at w i xs).
Proof.
  unfold window_at, prep_values. now rewrite skipn_map, firstn_map.
Qed.

Lemma roll_std_at_short w xs i :
  (length (observed (window_at w i (prep_values xs))) < w)%nat ->
  roll_std_at w xs i = NaN.
Proof.
  intros H. unfold roll_std_at.
  apply Nat.leb_gt in H. now rewrite H.
Qed.

(** Before the first full window. *)
Lemma roll_std_at_early w xs i : (i + 1 < w)%nat -> roll_std_at w xs i = NaN.
Proof.
  intros H. apply roll_std_at_short.
  pose proof (length_observed (window_at w i (prep_values xs))).
  pose proof (length_window_at w i (prep_values xs)). lia.
Qed.

(** A window holding a value that is not finite. *)
Lemma roll_std_at_gap w xs i j r :
  (i + 1 - w <= j)%nat -> (j <= i)%nat ->
  nth_error xs j = Some r ->
  (forall x, r <> Fin x) ->
  roll_std_at w xs i = NaN.
Proof.
  intros H1 H2 E N. apply roll_std_at_short.
  assert (I : In None (window_at w i (prep_values xs))).
  { apply (in_window_at w i j); auto.
    unfold prep_values. rewrite nth_error_map, E. simpl.
    destruct r; auto. now destruct (N x). }
  pose proof (length_observed_lt _ I).
  pose proof (length_window_at w i (prep_values xs)). lia.
Qed.

(** A full window of finite values. *)
Lemma roll_std_at_full w xs i ys :
  (2 <= w)%nat -> (w <= i + 1)%nat ->
  firstn w (skipn (i + 1 - w) xs) = map Fin ys ->
  length ys = w ->
  roll_std_at w xs i = Fin (sample_std ys).
Proof.
  intros Hw Hi E L. unfold roll_std_at.
  rewrite window_at_prep. unfold window_at.
  replace (i + 1 - (i + 1 - w))%nat with w by lia.
  rewrite E, prep_values_fin, observed_some, L.
  assert (L1 : (w <=? w)%nat = true) by (apply Nat.leb_le; lia).
  assert (L2 : (1 <? w)%nat = true) by (apply Nat.ltb_lt; lia).
  now rewrite L1, L2.
Qed.






Example rolling_std_first_full_window :
  exists s,
    nth_error (rolling_std 30 (map Fin (repeat 1%R 30))) 29 = Some (Fin s) /\
    nth_error (rolling_std 30 (map Fin (repeat 1%R 30))) 28 = Some NaN /\
    (0 <= s)%R.
Proof.
  exists (sample_std (repeat 1%R 30)). split; [|split].
  - rewrite nth_error_rolling_std by (simpl; lia).
    rewrite (roll_std_at_full 30 _ 29 (repeat 1%R 30)); auto; lia.
  - rewrite nth_error_rolling_std by (simpl; lia).
    rewrite roll_std_at_early; auto; lia.
  - apply sqrt_pos.
Qed.

(* ================================================================== *)
(** * Regime summaries *)

Lemma regime_summary_ok df regime c1 c2 c3 x1 x2 x3 :
  get_col "regime" df = Some regime ->
  get_col "log_return" df = Some c1 ->
  get_col "vol_30d" df = Some c2 ->
  get_col "drawdown" df = Some c3 ->
  floats_of c1 = Ok x1 -> floats_of c2 = Ok x2 -> floats_of c3 = Ok x3 ->
  regime_summary df
  = Ok (map (fun k => mkRow k (agg (group_of k regime x1))
                             (agg (group_of k regime x2))
                             (agg (group_of k regime x3)))
            (group_keys regime)).
Proof.
  intros E0 E1 E2 E3 F1 F2 F3. unfold regime_summary, frame_col, selected_col.
  rewrite E0, E1, E2, E3. simpl. rewrite F1, F2, F3. reflexivity.
Qed.

(** A frame that can be summarised has the columns the plots read, apart
    from ["Close"]. *)
Lemma regime_summary_columns df s :
  regime_summary df = Ok s ->
  exists c2 c3, get_col "vol_30d" df = Some c2 /\ get_col "drawdown" df = Some c3.
Proof.
  unfold regime_summary, frame_col, selected_col.
  destruct (get_col "regime" df); simpl; [|discriminate].
  destruct (get_col "log_return" df); simpl; [|discriminate].
  destruct (get_col "vol_30d" df); simpl; [|discriminate].
  destruct (get_col "drawdown" df); simpl; [|discriminate].
  eauto.
Qed.

Lemma run_getitem_at h a df c col :
  frame_at h a df -> get_col c df = Some col ->
  df_getitem a c h = Ok (col, h).
Proof.
  intros Hf E. unfold df_getitem.
  rewrite (bind_ok _ (run_load_frame _ _ _ Hf)). now rewrite E.
Qed.

Lemma plot_index_panels_run h a df s close :
  frame_at h a df -> regime_summary df = Ok s ->
  get_col "Close" df = Some close ->
  plot_index_panels a h = Ok (tt, h).
Proof.
  intros Hf Hs Hc.
  destruct (regime_summary_columns df s Hs) as (c2 & c3 & E2 & E3).
  unfold plot_index_panels.
  rewrite (bind_ok _ (run_getitem_at _ _ _ _ _ Hf Hc)).
  rewrite (bind_ok _ (run_getitem_at _ _ _ _ _ Hf E2)).
  rewrite (bind_ok _ (run_getitem_at _ _ _ _ _ Hf E3)).
  reflexivity.
Qed.

Lemma analysis_item_run h acc name a df s close :
  frame_at h a df -> regime_summary df = Ok s ->
  get_col "Close" df = Some close ->
  analysis_item acc (name, a) h
  = Ok (mkSaved (per_index acc ++ [(name, summary_at h a)])
                (all_summaries acc ++ [tagged name (summary_at h a)]), h).
Proof.
  intros Hf Hs Hc. unfold analysis_item.
  rewrite (bind_ok _ (run_load_frame _ _ _ Hf)).
  rewrite (bind_ok _ (run_lift _ _ _ Hs)).
  rewrite (bind_ok _ (plot_index_panels_run _ _ _ _ _ Hf Hs Hc)).
  unfold summary_at. rewrite (frame_of_at _ _ _ Hf), Hs. reflexivity.
Qed.

Lemma foldM_analysis h items : forall acc,
  (forall name a, In (name, a) items ->
     exists df s close,
       frame_at h a df /\ regime_summary df = Ok s /\
       get_col "Close" df = Some close) ->
  foldM items acc analysis_item h
  = Ok (mkSaved
          (per_index acc ++ map (fun it => (fst it, summary_at h (snd it))) items)
          (all_summaries acc
             ++ map (fun it => tagged (fst it) (summary_at h (snd it))) items),
        h).
Proof.
  induction items as [|[name a] t IH]; intros acc H; simpl.
  - rewrite !app_nil_r. now destruct acc.
  - destruct (H name a (or_introl eq_refl)) as (df & s & close & Hf & Hs & Hc).
    rewrite (bind_ok _ (analysis_item_run h acc name a df s close Hf Hs Hc)).
    rewrite IH by (intros n b Hin; apply (H n b); now right).
    simpl. now rewrite <- !app_assoc.
Qed.

Lemma run_analysis_run h data items :
  labelled_input h data items ->
  run_analysis data h
  = Ok ((map (fun it => (fst it, summary_at h (snd it))) items,
         match items with
         | [] => None
         | _ => Some (stacked h items)
         end), h).
Proof.
  intros [Hd H]. unfold run_analysis.
  assert (Hi : dict_items data h = Ok (items, h)) by now apply run_load_dict.
  rewrite (bind_ok _ Hi).
  rewrite (bind_ok _ (foldM_analysis h items (mkSaved [] []) H)).
  simpl. destruct items as [|it t]; reflexivity.
Qed.

Lemma two_series_labelled_input :
  labelled_input two_series_heap 2 [("SP500", 0%nat); ("NASDAQ", 1%nat)].
Proof.
  split; [reflexivity|].
  intros name a [[= <- <-]|[[= <- <-]|[]]].
  - exists (series_frame 1). do 2 eexists.
    split; [reflexivity|]. split; [|reflexivity].
    eapply (regime_summary_ok (series_frame 1)); try reflexivity;
      apply floats_of_float_col.
  - exists (series_frame 3). do 2 eexists.
    split; [reflexivity|]. split; [|reflexivity].
    eapply (regime_summary_ok (series_frame 3)); try reflexivity;
      apply floats_of_float_col.
Qed.

(** C3, as stated, fails: the combined table is the stack of the
    per-series summaries, not the summary of the concatenated rows.  For
    two series whose rows are all "normal", the combined table has two
    rows, one per series, whereas grouping the concatenation gives one. *)
Lemma combined_is_not_regrouped :
  exists per combined rows,
    run_analysis 2 two_series_heap = Ok ((per, Some combined), two_series_heap) /\
    combined_of_concatenation [series_frame 1; series_frame 3] = Ok rows /\
    length combined = 2%nat /\ length rows = 1%nat /\
    map fr_row combined <> rows.
Proof.
  do 3 eexists. split; [|split].
  - exact (run_analysis_run _ _ _ two_series_labelled_input).
  - unfold combined_of_concatenation, concat_col. simpl rbind.
    eapply regime_summary_ok; try reflexivity;
      apply (floats_of_float_col [_; _; _; _]).
  - assert (L : length (stacked two_series_heap
                          [("SP500", 0%nat); ("NASDAQ", 1%nat)]) = 2%nat).
    { unfold stacked, summary_at, tagged. cbn [map fst snd].
      change (frame_of two_series_heap 0) with (series_frame 1).
      change (frame_of two_series_heap 1) with (series_frame 3).
      rewrite (regime_summary_ok (series_frame 1) _ _ _ _ _ _ _
                 eq_refl eq_refl eq_refl eq_refl
                 (floats_of_float_col _) (floats_of_float_col _)
                 (floats_of_float_col _)).
      rewrite (regime_summary_ok (series_frame 3) _ _ _ _ _ _ _
                 eq_refl eq_refl eq_refl eq_refl
                 (floats_of_float_col _) (floats_of_float_col _)
                 (floats_of_float_col _)).
      reflexivity. }
    split; [exact L|]. split; [reflexivity|].
    intros E. apply (f_equal (@length _)) in E.
    rewrite length_map, L in E. discriminate E.
Qed.

(** C3, amended.  The combined table [run_analysis] writes is the stack
    of the per-series regime summaries in the order of the dictionary,
    each row tagged with the name of its series: it has one row for each
    pair of a series and a regime present in it.  The per-series tables
    are the regime summaries of the frames, and the heap is unchanged. *)
Theorem combined_is_stacked_summaries :
  forall h data items,
    labelled_input h data items ->
    items <> [] ->
    exists per combined,
      run_analysis data h = Ok ((per, Some combined), h) /\
      per = map (fun it => (fst it, summary_at h (snd it))) items /\
      combined = concat (map (fun p => tagged (fst p) (snd p)) per) /\
      (forall row, In row combined <->
         exists name a, In (name, a) items /\ fr_index row = name /\
                        In (fr_row row) (summary_at h a)) /\
      (forall name a df, In (name, a) items -> frame_at h a df ->
         regime_summary df = Ok (summary_at h a)).
Proof.
  intros h data items Hin Hne.
  exists (map (fun it => (fst it, summary_at h (snd it))) items),
    (stacked h items).
  split.
  { rewrite (run_analysis_run h data items Hin).
    destruct items; [congruence|reflexivity]. }
  split; [reflexivity|].
  split; [unfold stacked; now rewrite map_map|].
  split.
  - intros row. unfold stacked, tagged. rewrite in_concat. split.
    + intros (l & Hl & Hr). apply in_map_iff in Hl as ([name a] & <- & Hi).
      apply in_map_iff in Hr as (r & <- & Hr). exists name, a. auto.
    + intros (name & a & Hi & En & Hr). destruct row as [r n]. simpl in *.
      subst n.
      exists (map (fun row => mkFlat row name) (summary_at h a)). split.
      * apply in_map_iff. exists (name, a). auto.
      * apply in_map_iff. exists r. auto.
  - intros name a df Hi Hf. destruct Hin as [_ H].
    destruct (H name a Hi) as (df0 & s & close & Hf0 & Hs & _).
    unfold frame_at in *. rewrite Hf in Hf0. injection Hf0 as <-.
    unfold summary_at. rewrite (frame_of_at _ _ _ Hf), Hs. reflexivity.
Qed.

Lemma combined_is_stacked_summaries_witness :
  exists per combined,
    run_analysis 2 two_series_heap = Ok ((per, Some combined), two_series_heap) /\
    combined
    = tagged "SP500" (summary_at two_series_heap 0)
      ++ tagged "NASDAQ" (summary_at two_series_heap 1).
Proof.
  destruct (combined_is_stacked_summaries two_series_heap 2
              [("SP500", 0%nat); ("NASDAQ", 1%nat)]
              two_series_labelled_input)
    as (per & combined & R & -> & -> & _); [discriminate|].
  do 2 eexists. split; [exact R|].
  cbn [map concat fst snd]. now rewrite app_nil_r.
Defined.

(* ================================================================== *)
(** * Scenarios *)

(** Month offsets clamp the day to the length of the target month. *)
Example add_months_clamps :
  add_months (date 2020 3 31) (-1) = date 2020 2 29 /\
  add_months (date 2019 8 31) 6 = date 2020 2 29 /\
  add_months (date 2020 1 15) (-6) = date 2019 7 15 /\
  pre_start 6 (mkCrisis "covid_crash" (date 2020 2 15) (date 2020 4 30))
  = date 2019 8 15.
Proof. repeat split; reflexivity. Qed.

(** One interval 2020-03-01 .. 2020-03-31 with buffers of one month:
    2020-02-15 is pre-crisis, 2020-04-15 is post-crisis and not high
    risk, 2020-03-01 and 2020-03-31 are in the crisis, 2020-05-01 is
    normal. *)
Example one_interval_buffers :
  let df := mkFrame [ Some (date 2020 2 15); Some (date 2020 4 15);
                      Some (date 2020 3 1); Some (date 2020 3 31);
                      Some (date 2020 5 1) ] [] in
  let df' := labelled 1 1 [mkCrisis "march" (date 2020 3 1) (date 2020 3 31)] df in
  get_col "regime" df'
  = Some [ VStr "pre_crisis"; VStr "post_crisis"; VStr "crisis"; VStr "crisis";
           VStr "normal" ] /\
  get_col "is_pre_crisis" df' = Some [VInt 1; VInt 0; VInt 0; VInt 0; VInt 0] /\
  get_col "is_high_risk" df' = Some [VInt 1; VInt 0; VInt 1; VInt 1; VInt 0].
Proof. repeat split; reflexivity. Qed.

(** Prices 100, 105, 110, 90: the peak follows the first three and the
    last row is 20/110 under it. *)
Example four_prices :
  let prices := [Fin 100; Fin 105; Fin 110; Fin 90] in
  cummax prices = [Fin 100; Fin 105; Fin 110; Fin 110] /\
  diff (map np_log prices)
  = [NaN; Fin (ln 105 - ln 100); Fin (ln 110 - ln 105); Fin (ln 90 - ln 110)] /\
  nth_error (map2 fdiv (map2 fsub prices (cummax prices)) (cummax prices)) 3
  = Some (Fin ((90 - 110) / 110)).
Proof.
  assert (P : cummax [Fin 100; Fin 105; Fin 110; Fin 90]
              = [Fin 100; Fin 105; Fin 110; Fin 110]).
  { unfold cummax. repeat (progress (simpl; rdec)). reflexivity. }
  cbv zeta. rewrite P. split; [reflexivity|]. split.
  - cbn [map diff diff_from]. rewrite !np_log_pos by lra. reflexivity.
  - cbn [nth_error map2 fsub fadd fneg fdiv].
    rewrite fin_sign_pos by lra. reflexivity.
Qed.

(* ================================================================== *)
(** * Further properties of the labelling *)

Lemma last_match_split pre post d crises :
  (forall c, In c crises -> matched pre post c d = false) \/
  exists before c after,
    crises = before ++ c :: after /\ matched pre post c d = true /\
    forall c', In c' after -> matched pre post c' d = false.
Proof.
  induction crises as [|c t IH].
  - left. intros c [].
  - destruct IH as [U|(before & c0 & after & -> & Hm & Hu)].
    + destruct (matched pre post c d) eqn:E.
      * right. exists [], c, t. auto.
      * left. intros c' [<-|Hin]; auto.
    + right. exists (c :: before), c0, after. auto.
Qed.

Lemma written_regime_label pre post c d :
  In (written_regime pre post c d) regime_labels /\
  written_regime pre post c d <> "normal".
Proof.
  unfold written_regime, regime_labels.
  destruct (in_post post c d), (in_pre pre c d); simpl; split;
    try tauto; discriminate.
Qed.

(** The regime and the crisis name of a row: both initial, or both written
    by the last entry that matches. *)
Lemma label_row_cases pre post crises d :
  ((forall c, In c crises -> matched pre post c d = false) /\
   label_row pre post crises d = normal_row) \/
  (exists c, In c crises /\ matched pre post c d = true /\
     rl_regime (label_row pre post crises d)
       = VStr (written_regime pre post c d) /\
     rl_crisis_name (label_row pre post crises d) = VStr (crisis_name c)).
Proof.
  destruct (last_match_split pre post d crises)
    as [U|(before & c & after & -> & Hm & Hu)].
  - left. split; [exact U|]. now apply fold_unmatched.
  - right. exists c. split; [apply in_or_app; right; now left|].
    split; [exact Hm|]. now apply label_row_last_match.
Qed.

Lemma label_step_flags pre post d r c :
  rl_is_crisis (label_step pre post d r c)
    = (if in_crisis c d then VInt 1 else rl_is_crisis r) /\
  rl_is_pre_crisis (label_step pre post d r c)
    = (if in_pre pre c d then VInt 1 else rl_is_pre_crisis r).
Proof.
  unfold label_step, when.
  destruct (in_post post c d), (in_pre pre c d), (in_crisis c d); auto.
Qed.

Lemma fold_flags pre post d crises : forall r,
  rl_is_crisis (fold_left (label_step pre post d) crises r)
    = (if existsb (fun c => in_crisis c d) crises then VInt 1
       else rl_is_crisis r) /\
  rl_is_pre_crisis (fold_left (label_step pre post d) crises r)
    = (if existsb (fun c => in_pre pre c d) crises then VInt 1
       else rl_is_pre_crisis r).
Proof.
  induction crises as [|c t IH]; intros r; simpl; auto.
  destruct (IH (label_step pre post d r c)) as [E1 E2].
  destruct (label_step_flags pre post d r c) as [F1 F2].
  rewrite E1, E2, F1, F2.
  destruct (in_crisis c d), (in_pre pre c d); simpl;
    destruct (existsb _ t), (existsb _ t); auto.
Qed.

Lemma label_row_flags pre post crises d :
  rl_is_crisis (label_row pre post crises d)
    = flag (existsb (fun c => in_crisis c d) crises) /\
  rl_is_pre_crisis (label_row pre post crises d)
    = flag (existsb (fun c => in_pre pre c d) crises) /\
  high_risk (label_row pre post crises d)
    = flag (existsb (fun c => in_crisis c d) crises
            || existsb (fun c => in_pre pre c d) crises).
Proof.
  destruct (fold_flags pre post d crises normal_row) as [E1 E2].
  fold (label_row pre post crises d) in E1, E2.
  unfold high_risk, flag. rewrite E1, E2. simpl.
  destruct (existsb _ crises), (existsb _ crises); auto.
Qed.

(** X1.  In every row of a labelled frame the regime is one of "normal",
    "pre_crisis", "crisis" and "post_crisis".  It is "normal" exactly when
    the crisis name is None, and exactly when no mask of any calendar
    entry selects the row; otherwise the crisis name is the name of a
    calendar entry that selects the row.
    Every buffer bound of the calendar is taken to be a representable
    timestamp; if one is not, the call raises [OutOfBoundsDatetime]. *)
Theorem regime_and_crisis_name_agree :
  forall pre post crises h data name df i d,
    forallb (buffers_in_range pre post) crises = true ->
    frames_input h data name df ->
    nth_error (df_index df) i = Some d ->
    exists df' r n,
      returns (label_crisis_periods_with pre post crises data) h name df' /\
      cell "regime" i df' = Some (VStr r) /\
      cell "crisis_name" i df' = Some n /\
      In r regime_labels /\
      (r = "normal" <-> n = VNone) /\
      (r = "normal" <->
       forall c, In c crises -> matched pre post c d = false) /\
      (n = VNone \/
       exists c, In c crises /\ matched pre post c d = true /\
                 n = VStr (crisis_name c)).
Proof.
  intros pre post crises h data name df i d B Hin Hd.
  destruct (labelled_cells pre post crises df i d Hd) as (E1 & E2 & _).
  pose proof (label_crisis_periods_returns pre post crises h data name df
                B Hin) as R.
  destruct (label_row_cases pre post crises d)
    as [[U En]|(c & Hc & Hm & Er & En)].
  - exists (labelled pre post crises df), "normal", VNone.
    rewrite En in E1, E2. repeat split; auto.
    unfold regime_labels. simpl. tauto.
  - destruct (written_regime_label pre post c d) as [L N].
    exists (labelled pre post crises df), (written_regime pre post c d),
      (VStr (crisis_name c)).
    rewrite Er in E1. rewrite En in E2.
    repeat split; auto; try (intros; congruence); try discriminate.
    + intros U. rewrite (U c Hc) in Hm. discriminate.
    + right. exists c. auto.
Qed.

Lemma regime_and_crisis_name_agree_witness :
  exists df' r,
    returns (label_crisis_periods 6 6 1) example_heap "SP500" df' /\
    cell "regime" 4 df' = Some (VStr r) /\
    In r regime_labels /\
    cell "crisis_name" 4 df' <> Some VNone.
Proof.
  destruct (regime_and_crisis_name_agree 6 6 CRISES example_heap 1 "SP500"
              example_frame 4 (Some (date 2019 9 1))
              eq_refl example_frames_input eq_refl)
    as (df' & r & n & R & E1 & E2 & L & N1 & N2 & _).
  exists df', r. split; [exact R|]. split; [exact E1|]. split; [exact L|].
  rewrite E2. intros [= ->].
  assert (Hr : r = "normal") by now apply N1.
  assert (Hm : matched 6 6
                 (mkCrisis "covid_crash" (date 2020 2 15) (date 2020 4 30))
                 (Some (date 2019 9 1)) = false).
  { apply (proj1 N2 Hr). simpl. tauto. }
  discriminate Hm.
Defined.

(** X2.  The flags record the windows a row has been in, whatever was
    written later: [is_crisis] is 1 exactly when the crisis mask of some
    calendar entry selects the row, [is_pre_crisis] is 1 exactly when some
    pre-crisis mask does, and [is_high_risk] is 1 exactly when one of the
    two holds.  A row whose regime is "crisis" has [is_crisis = 1] and a
    row whose regime is "pre_crisis" has [is_pre_crisis = 1].
    Every buffer bound of the calendar is taken to be a representable
    timestamp; if one is not, the call raises [OutOfBoundsDatetime]. *)
Theorem flags_record_windows :
  forall pre post crises h data name df i d,
    forallb (buffers_in_range pre post) crises = true ->
    frames_input h data name df ->
    nth_error (df_index df) i = Some d ->
    exists df',
      returns (label_crisis_periods_with pre post crises data) h name df' /\
      cell "is_crisis" i df'
        = Some (flag (existsb (fun c => in_crisis c d) crises)) /\
      cell "is_pre_crisis" i df'
        = Some (flag (existsb (fun c => in_pre pre c d) crises)) /\
      cell "is_high_risk" i df'
        = Some (flag (existsb (fun c => in_crisis c d) crises
                      || existsb (fun c => in_pre pre c d) crises)) /\
      (cell "regime" i df' = Some (VStr "crisis") ->
       cell "is_crisis" i df' = Some (VInt 1)) /\
      (cell "regime" i df' = Some (VStr "pre_crisis") ->
       cell "is_pre_crisis" i df' = Some (VInt 1)).
Proof.
  intros pre post crises h data name df i d B Hin Hd.
  destruct (labelled_cells pre post crises df i d Hd)
    as (E1 & _ & E3 & E4 & E5).
  destruct (label_row_flags pre post crises d) as (F1 & F2 & F3).
  exists (labelled pre post crises df).
  split; [now apply label_crisis_periods_returns|].
  rewrite E1, E3, E4, E5, F1, F2, F3.
  repeat split.
  - intros [= Er].
    destruct (label_row_cases pre post crises d)
      as [[_ En]|(c & Hc & Hm & Ew & _)].
    + rewrite En in Er. discriminate.
    + rewrite Ew in Er. injection Er as Er.
      assert (Hcr : in_crisis c d = true).
      { unfold written_regime, matched in *.
        destruct (in_post post c d), (in_pre pre c d), (in_crisis c d);
          try discriminate; reflexivity. }
      assert (Hex : existsb (fun c => in_crisis c d) crises = true).
      { apply existsb_exists. exists c. auto. }
      now rewrite Hex.
  - intros [= Er].
    destruct (label_row_cases pre post crises d)
      as [[_ En]|(c & Hc & Hm & Ew & _)].
    + rewrite En in Er. discriminate.
    + rewrite Ew in Er. injection Er as Er.
      assert (Hpr : in_pre pre c d = true).
      { unfold written_regime in *.
        destruct (in_post post c d), (in_pre pre c d);
          try discriminate; reflexivity. }
      assert (Hex : existsb (fun c => in_pre pre c d) crises = true).
      { apply existsb_exists. exists c. auto. }
      now rewrite Hex.
Qed.

Lemma flags_record_windows_witness :
  exists df',
    returns (label_crisis_periods 60 6 1) example_heap "SP500" df' /\
    cell "is_crisis" 0 df' = Some (VInt 1) /\
    cell "is_pre_crisis" 0 df' = Some (VInt 1) /\
    cell "is_high_risk" 0 df' = Some (VInt 1).
Proof.
  destruct (flags_record_windows 60 6 CRISES example_heap 1 "SP500"
              example_frame 0 (Some (date 2002 10 15))
              eq_refl example_frames_input eq_refl)
    as (df' & R & E1 & E2 & E3 & _).
  exists df'. split; [exact R|]. split; [exact E1|]. split; [exact E2|].
  exact E3.
Defined.

(** X3.  A row whose index entry is NaT (an unparseable date) is selected
    by no mask: it stays "normal", with no crisis name and all flags at
    0, whatever the calendar, and whatever the buffers as long as the
    bounds they give are representable timestamps (if one is not, the
    call raises [OutOfBoundsDatetime]). *)
Theorem nat_rows_stay_normal :
  forall pre post crises h data name df i,
    forallb (buffers_in_range pre post) crises = true ->
    frames_input h data name df ->
    nth_error (df_index df) i = Some None ->
    exists df',
      returns (label_crisis_periods_with pre post crises data) h name df' /\
      cell "regime" i df' = Some (VStr "normal") /\
      cell "crisis_name" i df' = Some VNone /\
      cell "is_crisis" i df' = Some (VInt 0) /\
      cell "is_pre_crisis" i df' = Some (VInt 0) /\
      cell "is_high_risk" i df' = Some (VInt 0).
Proof.
  intros pre post crises h data name df i B Hin Hd.
  destruct (labelled_cells pre post crises df i None Hd)
    as (E1 & E2 & E3 & E4 & E5).
  exists (labelled pre post crises df).
  split; [now apply label_crisis_periods_returns|].
  rewrite E1, E2, E3, E4, E5. unfold label_row.
  rewrite fold_unmatched by (intros c _; reflexivity).
  repeat split.
Qed.

Lemma nat_rows_stay_normal_witness :
  exists df',
    returns (label_crisis_periods 6 6 1) example_heap "SP500" df' /\
    cell "regime" 5 df' = Some (VStr "normal") /\
    cell "crisis_name" 5 df' = Some VNone.
Proof.
  destruct (nat_rows_stay_normal 6 6 CRISES example_heap 1 "SP500"
              example_frame 5 eq_refl example_frames_input eq_refl)
    as (df' & R & E1 & E2 & _).
  exists df'. auto.
Defined.

(** ** The shipped calendar *)

Lemma ts_lt_le a b : ts_lt a b = true -> ts_le a b = true.
Proof. unfold ts_lt, ts_le. now destruct (ts_compare a b). Qed.

(** A date an entry matches lies between the start of its pre-crisis
    buffer and the end of its post-crisis buffer. *)
Lemma matched_span pre post c t :
  ts_le (pre_start pre c) (crisis_start c) = true ->
  ts_le (crisis_start c) (crisis_end c) = true ->
  ts_le (crisis_end c) (post_end post c) = true ->
  matched pre post c (Some t) = true ->
  ts_le (pre_start pre c) t = true /\ ts_le t (post_end post c) = true.
Proof.
  intros H1 H2 H3. unfold matched, in_crisis, in_pre, in_post. simpl.
  intros Hm. apply orb_prop in Hm as [Hm|Hm].
  - apply orb_prop in Hm as [Hm|Hm]; apply andb_prop in Hm as [A B].
    + split; eauto using ts_le_trans.
    + apply ts_lt_le in B. split; eauto using ts_le_trans.
  - apply andb_prop in Hm as [A B]. apply ts_lt_le in A.
    split; eauto using ts_le_trans.
Qed.

Lemma spans_apart pre post c1 c2 t :
  ts_lt (post_end post c1) (pre_start pre c2) = true ->
  ts_le t (post_end post c1) = true ->
  ts_le (pre_start pre c2) t = true ->
  False.
Proof.
  intros L A B. rewrite ts_lt_not_le in L.
  rewrite (ts_le_trans _ _ _ B A) in L. discriminate.
Qed.

(** With buffers of six months the windows of the four entries of
    [CRISES] are pairwise disjoint. *)
Lemma default_windows_disjoint d c1 c2 :
  In c1 CRISES -> In c2 CRISES ->
  matched 6 6 c1 d = true -> matched 6 6 c2 d = true -> c1 = c2.
Proof.
  intros I1 I2 M1 M2. destruct d as [t|]; [|discriminate M1].
  assert (S1 : ts_le (pre_start 6 c1) t = true /\ ts_le t (post_end 6 c1) = true).
  { simpl in I1. destruct I1 as [<-|[<-|[<-|[<-|[]]]]];
      apply matched_span; auto. }
  assert (S2 : ts_le (pre_start 6 c2) t = true /\ ts_le t (post_end 6 c2) = true).
  { simpl in I2. destruct I2 as [<-|[<-|[<-|[<-|[]]]]];
      apply matched_span; auto. }
  destruct S1 as [A1 B1], S2 as [A2 B2].
  simpl in I1, I2.
  destruct I1 as [<-|[<-|[<-|[<-|[]]]]];
    destruct I2 as [<-|[<-|[<-|[<-|[]]]]];
    try reflexivity; exfalso;
    first [ eapply (spans_apart 6 6); [ | exact B1 | exact A2 ]; reflexivity
          | eapply (spans_apart 6 6); [ | exact B2 | exact A1 ]; reflexivity ].
Qed.

Lemma existsb_unique {A} (f : A -> bool) (l : list A) (c : A) :
  In c l -> (forall c', In c' l -> f c' = true -> c' = c) ->
  existsb f l = f c.
Proof.
  intros Hc U. destruct (f c) eqn:E.
  - apply existsb_exists. eauto.
  - destruct (existsb f l) eqn:X; [|reflexivity].
    apply existsb_exists in X as (c' & Hin & Hf).
    rewrite (U c' Hin Hf) in Hf. congruence.
Qed.

(** X4.  With the shipped calendar and the default buffers of six months
    no date is selected by two entries.  A row that an entry of [CRISES]
    selects therefore carries the labels of that entry alone: its name,
    the regime of the mask that selects the row, [is_crisis = 1] exactly
    for a date of the crisis window and [is_pre_crisis = 1] exactly for a
    date of the pre-crisis buffer. *)
Theorem default_calendar_labels :
  forall h data name df i d c,
    frames_input h data name df ->
    nth_error (df_index df) i = Some d ->
    In c CRISES ->
    matched 6 6 c d = true ->
    exists df',
      returns (label_crisis_periods 6 6 data) h name df' /\
      (forall c', In c' CRISES -> matched 6 6 c' d = true -> c' = c) /\
      cell "regime" i df' = Some (VStr (written_regime 6 6 c d)) /\
      cell "crisis_name" i df' = Some (VStr (crisis_name c)) /\
      cell "is_crisis" i df' = Some (flag (in_crisis c d)) /\
      cell "is_pre_crisis" i df' = Some (flag (in_pre 6 c d)) /\
      (in_crisis c d = true -> cell "regime" i df' = Some (VStr "crisis")).
Proof.
  intros h data name df i d c Hin Hd Hc Hm.
  assert (U : forall c', In c' CRISES -> matched 6 6 c' d = true -> c' = c).
  { intros c' Hc' Hm'. exact (default_windows_disjoint d c' c Hc' Hc Hm' Hm). }
  destruct (labelled_cells 6 6 CRISES df i d Hd) as (E1 & E2 & E3 & E4 & _).
  destruct (label_row_flags 6 6 CRISES d) as (F1 & F2 & _).
  exists (labelled 6 6 CRISES df).
  split; [now apply label_crisis_periods_returns|].
  split; [exact U|].
  assert (R : rl_regime (label_row 6 6 CRISES d) = VStr (written_regime 6 6 c d)
              /\ rl_crisis_name (label_row 6 6 CRISES d) = VStr (crisis_name c)).
  { destruct (label_row_cases 6 6 CRISES d)
      as [[N _]|(c0 & Hc0 & Hm0 & Er & En)].
    - rewrite (N c Hc) in Hm. discriminate.
    - rewrite (U c0 Hc0 Hm0) in Er, En. auto. }
  destruct R as [Er En].
  rewrite E1, E2, E3, E4, Er, En, F1, F2.
  rewrite (existsb_unique (fun c => in_crisis c d) CRISES c Hc).
  2:{ intros c' Hc' H'. apply U; auto. unfold matched. now rewrite H'. }
  rewrite (existsb_unique (fun c => in_pre 6 c d) CRISES c Hc).
  2:{ intros c' Hc' H'. apply U; auto. unfold matched. rewrite H'.
      now rewrite orb_true_r. }
  repeat split.
  intros Hcr. unfold written_regime.
  now destruct (in_crisis_exclusive 6 6 c d Hcr) as [-> ->].
Qed.

Lemma default_calendar_labels_witness :
  exists df',
    returns (label_crisis_periods 6 6 1) example_heap "SP500" df' /\
    cell "regime" 0 df' = Some (VStr "crisis") /\
    cell "crisis_name" 0 df' = Some (VStr "dotcom_bubble") /\
    cell "is_pre_crisis" 0 df' = Some (VInt 0).
Proof.
  destruct (default_calendar_labels example_heap 1 "SP500" example_frame 0
              (Some (date 2002 10 15))
              (mkCrisis "dotcom_bubble" (date 2000 3 1) (date 2002 10 31))
              example_frames_input eq_refl (or_introl eq_refl) eq_refl)
    as (df' & R & _ & E1 & E2 & _ & E4 & _).
  exists df'. auto.
Defined.

(** ** Labels are a function of the date *)

Lemma label_column_cases c :
  label_column c = true ->
  c = "regime" \/ c = "crisis_name" \/ c = "is_crisis" \/
  c = "is_pre_crisis" \/ c = "is_high_risk".
Proof.
  unfold label_column. simpl. rewrite !orb_true_iff, !String.eqb_eq.
  intuition discriminate.
Qed.

(** X5.  The labels of a row depend on its date alone: two rows with the
    same index entry, in the same series or in two series of the
    dictionary, have the same cells in the five regime columns.
    Every buffer bound of the calendar is taken to be a representable
    timestamp; if one is not, the call raises [OutOfBoundsDatetime]. *)
Theorem same_date_same_labels :
  forall pre post crises h data name1 df1 i1 name2 df2 i2 d,
    forallb (buffers_in_range pre post) crises = true ->
    frames_input h data name1 df1 ->
    frames_input h data name2 df2 ->
    nth_error (df_index df1) i1 = Some d ->
    nth_error (df_index df2) i2 = Some d ->
    exists df1' df2',
      returns (label_crisis_periods_with pre post crises data) h name1 df1' /\
      returns (label_crisis_periods_with pre post crises data) h name2 df2' /\
      forall c, label_column c = true -> cell c i1 df1' = cell c i2 df2'.
Proof.
  intros pre post crises h data name1 df1 i1 name2 df2 i2 d B H1 H2 D1 D2.
  exists (labelled pre post crises df1), (labelled pre post crises df2).
  split; [now apply label_crisis_periods_returns|].
  split; [now apply label_crisis_periods_returns|].
  destruct (labelled_cells pre post crises df1 i1 d D1)
    as (A1 & A2 & A3 & A4 & A5).
  destruct (labelled_cells pre post crises df2 i2 d D2)
    as (B1 & B2 & B3 & B4 & B5).
  intros c Hc.
  destruct (label_column_cases c Hc) as [->|[->|[->|[->| ->]]]]; congruence.
Qed.

Lemma same_date_same_labels_witness :
  exists df1' df2',
    returns (label_crisis_periods 6 6 2) two_series_heap "SP500" df1' /\
    returns (label_crisis_periods 6 6 2) two_series_heap "NASDAQ" df2' /\
    cell "regime" 1 df1' = cell "regime" 1 df2'.
Proof.
  assert (I1 : frames_input two_series_heap 2 "SP500" (series_frame 1)).
  { exists [("SP500", 0%nat); ("NASDAQ", 1%nat)], 0%nat.
    unfold dict_at, frame_at. repeat split; try reflexivity.
    - repeat constructor; simpl; intuition discriminate.
    - intros k b [[= <- <-]|[[= <- <-]|[]]]; eexists; reflexivity. }
  assert (I2 : frames_input two_series_heap 2 "NASDAQ" (series_frame 3)).
  { exists [("SP500", 0%nat); ("NASDAQ", 1%nat)], 1%nat.
    unfold dict_at, frame_at. repeat split; try reflexivity.
    - repeat constructor; simpl; intuition discriminate.
    - intros k b [[= <- <-]|[[= <- <-]|[]]]; eexists; reflexivity. }
  destruct (same_date_same_labels 6 6 CRISES two_series_heap 2
              "SP500" (series_frame 1) 1 "NASDAQ" (series_frame 3) 1
              (Some (date 2015 1 6)) eq_refl I1 I2 eq_refl eq_refl)
    as (df1' & df2' & R1 & R2 & E).
  exists df1', df2'. split; [exact R1|]. split; [exact R2|].
  apply E. reflexivity.
Defined.

(** ** Buffers of zero months *)

Lemma add_months_zero t : valid_ts t -> add_months t 0 = t.
Proof.
  destruct t as [y m d n]. unfold valid_ts, add_months. simpl.
  intros [Hm Hd].
  assert (Ey : ((y * 12 + (m - 1) + 0) / 12 = y)%Z).
  { symmetry. apply (Z.div_unique _ _ y (m - 1)); lia. }
  assert (Em : ((y * 12 + (m - 1) + 0) mod 12 + 1 = m)%Z).
  { replace (y * 12 + (m - 1) + 0)%Z with ((m - 1) + y * 12)%Z by lia.
    rewrite Z.mod_add by lia. rewrite Z.mod_small; lia. }
  rewrite Ey, Em. f_equal. lia.
Qed.

Lemma zero_buffers_in_range crises :
  Forall valid_crisis crises ->
  forallb (buffers_in_range 0 0) crises = true.
Proof.
  intros V. apply forallb_forall. intros c Hc.
  rewrite Forall_forall in V. destruct (V c Hc) as [Vs Ve].
  unfold buffers_in_range, offset_ok. change (- 0)%Z with 0%Z.
  rewrite !add_months_zero by assumption.
  now destruct (in_bounds (crisis_start c)), (in_bounds (crisis_end c)).
Qed.

Lemma zero_buffers_empty c d :
  valid_crisis c -> in_pre 0 c d = false /\ in_post 0 c d = false.
Proof.
  intros [Vs Ve]. unfold in_pre, in_post, pre_start, post_end.
  change (- 0)%Z with 0%Z. rewrite !add_months_zero by assumption.
  destruct d as [t|]; simpl; [|auto].
  rewrite !ts_lt_not_le. split.
  - now destruct (ts_le (crisis_start c) t).
  - now destruct (ts_le t (crisis_end c)).
Qed.

(** X6.  With [pre_crisis_months = 0] and [post_crisis_months = 0] and a
    calendar of valid dates the buffers are empty: every row is "normal"
    or "crisis", [is_pre_crisis] is 0 throughout, and the regime is
    "crisis" exactly in the rows with [is_crisis = 1], that is, the rows
    whose date lies in the window of some entry. *)
Theorem zero_buffers_only_crisis :
  forall crises h data name df i d,
    Forall valid_crisis crises ->
    frames_input h data name df ->
    nth_error (df_index df) i = Some d ->
    exists df' r,
      returns (label_crisis_periods_with 0 0 crises data) h name df' /\
      cell "regime" i df' = Some (VStr r) /\
      (r = "normal" \/ r = "crisis") /\
      cell "is_pre_crisis" i df' = Some (VInt 0) /\
      cell "is_crisis" i df'
        = Some (flag (existsb (fun c => in_crisis c d) crises)) /\
      (r = "crisis" <-> existsb (fun c => in_crisis c d) crises = true).
Proof.
  intros crises h data name df i d V Hin Hd.
  pose proof (zero_buffers_in_range crises V) as B.
  rewrite Forall_forall in V.
  destruct (labelled_cells 0 0 crises df i d Hd) as (E1 & _ & E3 & E4 & _).
  destruct (label_row_flags 0 0 crises d) as (F1 & F2 & _).
  assert (P : existsb (fun c => in_pre 0 c d) crises = false).
  { destruct (existsb (fun c => in_pre 0 c d) crises) eqn:X; [|reflexivity].
    apply existsb_exists in X as (c & Hc & Hp).
    destruct (zero_buffers_empty c d (V c Hc)) as [Hp' _]. congruence. }
  pose proof (label_crisis_periods_returns 0 0 crises h data name df B Hin)
    as R.
  rewrite F1 in E3. rewrite F2, P in E4.
  destruct (label_row_cases 0 0 crises d)
    as [[U En]|(c & Hc & Hm & Er & _)].
  - exists (labelled 0 0 crises df), "normal".
    rewrite En in E1. repeat split; auto; try discriminate.
    intros X. apply existsb_exists in X as (c & Hc & Hx).
    specialize (U c Hc). unfold matched in U. rewrite Hx in U. discriminate.
  - destruct (zero_buffers_empty c d (V c Hc)) as [Hp Hq].
    assert (Hx : in_crisis c d = true).
    { unfold matched in Hm. now rewrite Hp, Hq, !orb_false_r in Hm. }
    exists (labelled 0 0 crises df), "crisis".
    unfold written_regime in Er. rewrite Hp, Hq in Er. rewrite Er in E1.
    repeat split; auto.
    intros _. apply existsb_exists. eauto.
Qed.

Lemma zero_buffers_only_crisis_witness :
  exists df',
    returns (label_crisis_periods 0 0 1) example_heap "SP500" df' /\
    cell "regime" 2 df' = Some (VStr "normal") /\
    cell "regime" 1 df' = Some (VStr "crisis").
Proof.
  assert (V : Forall valid_crisis CRISES).
  { repeat (apply Forall_cons; [unfold valid_crisis, valid_ts; cbn; lia|]).
    apply Forall_nil. }
  destruct (zero_buffers_only_crisis CRISES example_heap 1 "SP500"
              example_frame 2 (Some (date 2020 6 1)) V
              example_frames_input eq_refl)
    as (df' & r & R & E & [-> | ->] & _ & _ & X).
  2:{ destruct X as [X _]. discriminate (X eq_refl). }
  destruct (zero_buffers_only_crisis CRISES example_heap 1 "SP500"
              example_frame 1 (Some (date 2020 3 2)) V
              example_frames_input eq_refl)
    as (df'' & r' & R' & E' & _ & _ & _ & X').
  assert (r' = "crisis") by (apply X'; reflexivity). subst r'.
  exists df'. split; [exact R|]. split; [exact E|].
  destruct R as (o1 & h1 & a1 & R1 & (it1 & D1 & L1 & F1) & _).
  destruct R' as (o2 & h2 & a2 & R2 & (it2 & D2 & L2 & F2) & _).
  unfold label_crisis_periods. rewrite R1 in R2.
  injection R2 as <- <-. unfold dict_at in *. rewrite D1 in D2.
  injection D2 as <-. rewrite L1 in L2. injection L2 as <-.
  unfold frame_at in *. rewrite F1 in F2. injection F2 as <-.
  exact E'.
Defined.

(* ================================================================== *)
(** * The stages as dictionary transformers *)

Lemma map_fst_combine {A B} (l : list A) : forall (l' : list B),
  length l = length l' -> map fst (combine l l') = l.
Proof.
  induction l as [|x t IH]; intros [|y l']; simpl; try discriminate; auto.
  intros [= E]. now rewrite IH.
Qed.

Lemma map_snd_combine {A B} (l : list A) : forall (l' : list B),
  length l = length l' -> map snd (combine l l') = l'.
Proof.
  induction l as [|x t IH]; intros [|y l']; simpl; try discriminate; auto.
  intros [= E]. now rewrite IH.
Qed.

Lemma in_combine_seq (items : list (string * nat)) : forall s k b',
  In (k, b') (combine (map fst items) (seq s (length items))) ->
  exists i b, b' = (s + i)%nat /\ nth_error items i = Some (k, b).
Proof.
  induction items as [|[k0 b0] t IH]; intros s k b'; simpl; [tauto|].
  intros [[= <- <-]|Hin].
  - exists 0%nat, b0. split; [lia|reflexivity].
  - destruct (IH (S s) k b' Hin) as (i & b & -> & N).
    exists (S i), b. split; [lia|exact N].
Qed.

(** The dictionary a stage returns: the keys of the input in their order,
    bound to the new frames. *)
Lemma heap_after_dict F h data items :
  frames_dict h data items ->
  let items' := combine (map fst items) (seq (S (length h)) (length items)) in
  frames_dict (heap_after F h items) (length h) items' /\
  map fst items' = map fst items /\
  (forall k b', In (k, b') items' ->
     exists b f, In (k, b) items /\ frame_at h b f /\
                 frame_at (heap_after F h items) b' (F f)) /\
  (forall k b f, In (k, b) items -> frame_at h b f ->
     exists b', In (k, b') items' /\
                frame_at (heap_after F h items) b' (F f)).
Proof.
  intros (Hd & Hnd & Hfr) items'.
  assert (Ek : map fst items' = map fst items).
  { apply map_fst_combine. now rewrite length_map, length_seq. }
  assert (Hall : forall k b', In (k, b') items' ->
            exists b f, In (k, b) items /\ frame_at h b f /\
                        frame_at (heap_after F h items) b' (F f)).
  { intros k b' Hin.
    destruct (in_combine_seq items _ k b' Hin) as (i & b & -> & N).
    destruct (Hfr k b (nth_error_In _ _ N)) as (f & Hf).
    exists b, f. split; [exact (nth_error_In _ _ N)|]. split; [exact Hf|].
    unfold frame_at, heap_after. rewrite nth_error_app2 by lia.
    replace (S (length h) + i - length h)%nat with (S i) by lia.
    cbn [nth_error]. rewrite nth_error_map, N. cbn.
    now rewrite (frame_of_at _ _ _ Hf). }
  split; [|split; [exact Ek|split; [exact Hall|]]].
  - split; [apply nth_error_middle|]. split; [now rewrite Ek|].
    intros k b' Hin. destruct (Hall k b' Hin) as (b & f & _ & _ & Hf'). eauto.
  - intros k b f Hin Hf.
    destruct (In_nth_error _ _ Hin) as (i & N).
    exists (S (length h) + i)%nat. split.
    + assert (L : nth_error items' i = Some (k, (S (length h) + i)%nat)).
      { unfold items'.
        assert (Li : (i < length items)%nat)
          by (apply nth_error_Some; congruence).
        clear - N Li. revert i N Li. generalize (S (length h)).
        induction items as [|[k0 b0] t IH]; intros s [|i] N Li; simpl in *;
          try lia.
        - injection N as -> ->. do 2 f_equal. lia.
        - rewrite (IH (S s) i N) by lia. do 2 f_equal. lia. }
      exact (nth_error_In _ _ L).
    + unfold frame_at, heap_after. rewrite nth_error_app2 by lia.
      replace (S (length h) + i - length h)%nat with (S i) by lia.
      cbn [nth_error]. rewrite nth_error_map, N. cbn.
      now rewrite (frame_of_at _ _ _ Hf).
Qed.

Lemma frames_input_dict h data name df :
  frames_input h data name df ->
  exists items a, frames_dict h data items /\
                  lookup name items = Some a /\ frame_at h a df.
Proof.
  intros (items & a & Hd & Hnd & Hfr & L & Hf).
  exists items, a. repeat split; auto.
Qed.

Lemma prices_dict_frames h data items :
  prices_dict h data items -> frames_dict h data items.
Proof.
  intros (Hd & Hnd & Hfr). repeat split; auto.
  intros k b Hin. destruct (Hfr k b Hin) as (f & _ & Hf & _). eauto.
Qed.

Lemma seq_fresh s n a : In a (seq s n) -> (s <= a)%nat.
Proof. rewrite in_seq. lia. Qed.

(** X7.  Each stage returns a dictionary with the keys of its input, in
    the same order, each bound to a frame of its own: the addresses are
    new and pairwise distinct.  An empty dictionary gives an empty
    dictionary.  For the labelling stage every buffer bound of the
    calendar is taken to be a representable timestamp; if one is not and
    the dictionary has an item, the call raises [OutOfBoundsDatetime]. *)
Theorem stages_keep_the_keys :
  forall parse pre post crises h data items,
    (prices_dict h data items ->
     exists out h' items',
       compute_features parse data h = Ok (out, h') /\
       dict_at h' out items' /\
       map fst items' = map fst items /\
       NoDup (map snd items') /\
       (forall a, In a (map snd items') -> nth_error h a = None)) /\
    (forallb (buffers_in_range pre post) crises = true ->
     frames_dict h data items ->
     exists out h' items',
       label_crisis_periods_with pre post crises data h = Ok (out, h') /\
       dict_at h' out items' /\
       map fst items' = map fst items /\
       NoDup (map snd items') /\
       (forall a, In a (map snd items') -> nth_error h a = None)).
Proof.
  intros parse pre post crises h data items.
  assert (K : forall F,
            let items' := combine (map fst items)
                                  (seq (S (length h)) (length items)) in
            dict_at (heap_after F h items) (length h) items' /\
            map fst items' = map fst items /\
            NoDup (map snd items') /\
            (forall a, In a (map snd items') -> nth_error h a = None)).
  { intros F items'.
    assert (L : length (map fst items) = length (seq (S (length h)) (length items)))
      by now rewrite length_map, length_seq.
    split; [apply nth_error_middle|].
    split; [now apply map_fst_combine|].
    unfold items'. rewrite (map_snd_combine _ _ L).
    split; [apply seq_NoDup|].
    intros a Ha. apply seq_fresh in Ha. apply nth_error_None. lia. }
  split.
  - intros (Hd & Hnd & Hfr).
    exists (length h), (heap_after (featured parse) h items),
      (combine (map fst items) (seq (S (length h)) (length items))).
    split; [now apply compute_features_run|]. apply K.
  - intros B (Hd & Hnd & Hfr).
    exists (length h), (heap_after (labelled pre post crises) h items),
      (combine (map fst items) (seq (S (length h)) (length items))).
    split; [now apply label_crisis_periods_run|]. apply K.
Qed.

Lemma two_series_prices_dict :
  prices_dict two_series_heap 2 [("SP500", 0%nat); ("NASDAQ", 1%nat)].
Proof.
  unfold prices_dict, dict_at, frame_at. repeat split; try reflexivity.
  - repeat constructor; simpl; intuition discriminate.
  - intros k b [[= <- <-]|[[= <- <-]|[]]]; do 2 eexists; split; reflexivity.
Qed.

Lemma stages_keep_the_keys_witness :
  (exists out h' items',
     compute_features (fun _ => NaN) 2 two_series_heap = Ok (out, h') /\
     dict_at h' out items' /\ map fst items' = ["SP500"; "NASDAQ"]) /\
  (exists out h' items',
     label_crisis_periods 6 6 2 two_series_heap = Ok (out, h') /\
     dict_at h' out items' /\ map fst items' = ["SP500"; "NASDAQ"]).
Proof.
  destruct (stages_keep_the_keys (fun _ => NaN) 6 6 CRISES two_series_heap 2
              [("SP500", 0%nat); ("NASDAQ", 1%nat)]) as [F L].
  split.
  - destruct (F two_series_prices_dict) as (out & h' & items' & R & D & K & _).
    exists out, h', items'. auto.
  - destruct (L eq_refl (prices_dict_frames _ _ _ two_series_prices_dict))
      as (out & h' & items' & R & D & K & _).
    exists out, h', items'. auto.
Defined.

(** ** Labelling twice *)

Lemma labelled_relabel p q cr p' q' cr' df c :
  get_col c (labelled p' q' cr' (labelled p q cr df))
  = get_col c (labelled p' q' cr' df).
Proof.
  destruct (label_column c) eqn:K.
  - destruct (labelled_rows p' q' cr' (labelled p q cr df)) as (A1 & A2 & A3 & A4).
    destruct (labelled_rows p' q' cr' df) as (B1 & B2 & B3 & B4).
    pose proof (labelled_high_risk p' q' cr' (labelled p q cr df)) as A5.
    pose proof (labelled_high_risk p' q' cr' df) as B5.
    rewrite !labelled_index in *.
    destruct (label_column_cases c K) as [->|[->|[->|[->| ->]]]]; congruence.
  - now rewrite !labelled_other by exact K.
Qed.

(** X8.  Labelling starts from fresh columns: when a labelled dictionary
    is labelled again, with another calendar and other buffers, the
    frames that come out have the index and, column by column, the cells
    that labelling the original dictionary with the second calendar and
    buffers gives.  Nothing of the first labels survives.  In both calls
    every buffer bound is taken to be a representable timestamp; if one
    is not, that call raises [OutOfBoundsDatetime]. *)
Theorem relabelling_overwrites_labels :
  forall p q cr p' q' cr' h data name df,
    forallb (buffers_in_range p q) cr = true ->
    forallb (buffers_in_range p' q') cr' = true ->
    frames_input h data name df ->
    exists df2,
      returns (labelled_data <- label_crisis_periods_with p q cr data ;;
               label_crisis_periods_with p' q' cr' labelled_data)
              h name df2 /\
      df_index df2 = df_index df /\
      (forall c, get_col c df2 = get_col c (labelled p' q' cr' df)).
Proof.
  intros p q cr p' q' cr' h data name df B B' Hin.
  destruct (frames_input_dict h data name df Hin) as (items & a & FD & L & Hf).
  pose proof FD as (Hd & Hnd & Hfr).
  set (F1 := labelled p q cr). set (F2 := labelled p' q' cr').
  set (h1 := heap_after F1 h items).
  set (items1 := combine (map fst items) (seq (S (length h)) (length items))).
  destruct (heap_after_dict F1 h data items FD) as (FD1 & _ & _ & _).
  fold h1 items1 in FD1. pose proof FD1 as (Hd1 & Hnd1 & Hfr1).
  destruct (heap_after_entry F1 h items name a df L Hf)
    as (a1 & (its & Dits & L1 & Hf1) & _).
  fold h1 in Dits, Hf1. unfold dict_at in Dits, Hd1.
  rewrite Hd1 in Dits. injection Dits as <-.
  destruct (heap_after_entry F2 h1 items1 name a1 (F1 df) L1 Hf1)
    as (a2 & He2 & Hle2).
  exists (F2 (F1 df)). split.
  - exists (length h1), (heap_after F2 h1 items1), a2.
    split.
    { rewrite (bind_ok _ (label_crisis_periods_run p q cr h data items
                            B Hd Hnd Hfr)).
      now apply label_crisis_periods_run. }
    split; [exact He2|].
    assert (Lh : (length h <= length h1)%nat).
    { unfold h1, heap_after. rewrite length_app. lia. }
    split.
    { intros x o E. apply preserved_heap_after.
      now apply (preserved_heap_after F1 h items). }
    split; lia.
  - split.
    + unfold F1, F2. now rewrite !labelled_index.
    + intros c. apply labelled_relabel.
Qed.

Lemma relabelling_overwrites_labels_witness :
  exists df2,
    returns (labelled_data <- label_crisis_periods 60 6 1 ;;
             label_crisis_periods 6 6 labelled_data)
            example_heap "SP500" df2 /\
    get_col "regime" df2
    = Some [ VStr "crisis"; VStr "crisis"; VStr "post_crisis"; VStr "normal";
             VStr "pre_crisis"; VStr "normal" ].
Proof.
  destruct (relabelling_overwrites_labels 60 6 CRISES 6 6 CRISES example_heap 1
              "SP500" example_frame eq_refl eq_refl example_frames_input)
    as (df2 & R & _ & C).
  exists df2. split; [exact R|]. rewrite C. reflexivity.
Defined.

(* ================================================================== *)
(** * Further properties of the features *)

Lemma featured_other parse df c :
  feature_column c = false -> get_col c (featured parse df) = get_col c df.
Proof.
  unfold feature_column; simpl. rewrite !orb_false_iff.
  intros (E1 & E2 & E3 & E4 & E5 & _).
  apply String.eqb_neq in E1, E2, E3, E4, E5.
  unfold featured. now rewrite !get_set_other.
Qed.

Lemma featured_get_close parse df :
  get_col "Close" (featured parse df) = Some (float_col (prices_of parse df)).
Proof. unfold featured. cols. Qed.

Lemma prices_of_featured parse parse' df :
  prices_of parse' (featured parse df) = prices_of parse df.
Proof. apply prices_of_numeric, featured_get_close. Qed.

Lemma feature_column_cases c :
  feature_column c = true ->
  c = "Close" \/ c = "log_return" \/ c = "vol_30d" \/ c = "peak" \/
  c = "drawdown".
Proof.
  unfold feature_column. simpl. rewrite !orb_true_iff, !String.eqb_eq.
  intuition discriminate.
Qed.

Lemma featured_get c parse df :
  feature_column c = true ->
  exists xs, get_col c (featured parse df) = Some (float_col xs) /\
             fcol c (featured parse df) = Some xs.
Proof.
  intros K.
  destruct (feature_column_cases c K) as [->|[->|[->|[->| ->]]]];
    eexists; (split; [unfold featured; cols|]); fcols.
Qed.

(** X9.  [compute_features] touches five columns only: the frame it
    returns has the index of its input and, in every column other than
    "Close", "log_return", "vol_30d", "peak" and "drawdown", the cells of
    its input.  A "Close" column that already holds floats is kept cell
    for cell: the coercion only changes cells that are not floats. *)
Theorem features_keep_other_columns :
  forall parse h data name df,
    prices_input h data name df ->
    exists df',
      returns (compute_features parse data) h name df' /\
      df_index df' = df_index df /\
      (forall c, feature_column c = false -> get_col c df' = get_col c df) /\
      (forall xs, get_col "Close" df = Some (float_col xs) ->
                  get_col "Close" df' = Some (float_col xs)).
Proof.
  intros parse h data name df Hin.
  exists (featured parse df).
  split; [now apply compute_features_returns|].
  split; [reflexivity|].
  split; [intros c K; now apply featured_other|].
  intros xs E. rewrite featured_get_close. now rewrite (prices_of_numeric _ _ _ E).
Qed.

Lemma features_keep_other_columns_witness :
  exists df',
    returns (compute_features (fun _ => NaN) 2) two_series_heap "NASDAQ" df' /\
    get_col "regime" df' = Some [VStr "normal"; VStr "normal"] /\
    get_col "Close" df' = Some (float_col [Fin 100; Fin 110]).
Proof.
  assert (I : prices_input two_series_heap 2 "NASDAQ" (series_frame 3)).
  { destruct two_series_prices_dict as (D & N & Fr).
    exists [("SP500", 0%nat); ("NASDAQ", 1%nat)], 1%nat.
    repeat split; auto. }
  destruct (features_keep_other_columns (fun _ => NaN) two_series_heap 2
              "NASDAQ" (series_frame 3) I)
    as (df' & R & _ & O & C).
  exists df'. split; [exact R|]. split.
  - rewrite O by reflexivity. reflexivity.
  - apply C. reflexivity.
Defined.

(** ** Computing the features twice *)

Lemma featured_twice parse parse' df c :
  get_col c (featured parse' (featured parse df)) = get_col c (featured parse df).
Proof.
  destruct (feature_column c) eqn:K.
  - unfold featured at 1 3. rewrite !prices_of_featured.
    destruct (feature_column_cases c K) as [->|[->|[->|[->| ->]]]]; cols.
  - now rewrite !featured_other by exact K.
Qed.

Lemma heap_after_prices_dict parse h data items :
  prices_dict h data items ->
  prices_dict (heap_after (featured parse) h items) (length h)
    (combine (map fst items) (seq (S (length h)) (length items))).
Proof.
  intros PD.
  destruct (heap_after_dict (featured parse) h data items
              (prices_dict_frames _ _ _ PD)) as ((D & N & _) & _ & A & _).
  repeat split; auto.
  intros k b' Hin. destruct (A k b' Hin) as (b & f & _ & _ & Hf).
  exists (featured parse f). eexists. split; [exact Hf|].
  apply featured_get_close.
Qed.

Lemma prices_input_dict h data name df :
  prices_input h data name df ->
  exists items a, prices_dict h data items /\
                  lookup name items = Some a /\ frame_at h a df.
Proof.
  intros (items & a & Hd & Hnd & Hfr & L & Hf).
  exists items, a. repeat split; auto.
Qed.

(** X10.  Computing the features of a featured dictionary changes
    nothing: the frames that come out have, column by column, the cells
    of the frames that went in, because the prices are numeric already and
    every feature is recomputed from them. *)
Theorem features_twice_same_columns :
  forall parse parse' h data name df,
    prices_input h data name df ->
    exists df1 df2,
      returns (compute_features parse data) h name df1 /\
      returns (features <- compute_features parse data ;;
               compute_features parse' features) h name df2 /\
      df_index df2 = df_index df1 /\
      (forall c, get_col c df2 = get_col c df1).
Proof.
  intros parse parse' h data name df Hin.
  destruct (prices_input_dict h data name df Hin) as (items & a & PD & L & Hf).
  pose proof PD as (Hd & Hnd & Hfr).
  set (F1 := featured parse). set (F2 := featured parse').
  set (h1 := heap_after F1 h items).
  set (items1 := combine (map fst items) (seq (S (length h)) (length items))).
  pose proof (heap_after_prices_dict parse h data items PD) as PD1.
  fold F1 h1 items1 in PD1. pose proof PD1 as (Hd1 & Hnd1 & Hfr1).
  destruct (heap_after_entry F1 h items name a df L Hf)
    as (a1 & (its & Dits & L1 & Hf1) & _).
  fold h1 in Dits, Hf1. unfold dict_at in Dits, Hd1.
  rewrite Hd1 in Dits. injection Dits as <-.
  destruct (heap_after_entry F2 h1 items1 name a1 (F1 df) L1 Hf1)
    as (a2 & He2 & Hle2).
  exists (F1 df), (F2 (F1 df)).
  split; [now apply compute_features_returns|]. split.
  - exists (length h1), (heap_after F2 h1 items1), a2.
    split.
    { rewrite (bind_ok _ (compute_features_run parse h data items Hd Hnd Hfr)).
      now apply compute_features_run. }
    split; [exact He2|].
    assert (Lh : (length h <= length h1)%nat).
    { unfold h1, heap_after. rewrite length_app. lia. }
    split.
    { intros x o E. apply preserved_heap_after.
      now apply (preserved_heap_after F1 h items). }
    split; lia.
  - split; [reflexivity|]. intros c. apply featured_twice.
Qed.

Lemma features_twice_same_columns_witness :
  exists df1 df2,
    returns (compute_features (fun _ => NaN) 1) example_heap "SP500" df1 /\
    returns (features <- compute_features (fun _ => NaN) 1 ;;
             compute_features (fun _ => Fin 0) features)
            example_heap "SP500" df2 /\
    get_col "log_return" df2 = get_col "log_return" df1.
Proof.
  destruct (features_twice_same_columns (fun _ => NaN) (fun _ => Fin 0)
              example_heap 1 "SP500" example_frame example_prices_input)
    as (df1 & df2 & R1 & R2 & _ & C).
  exists df1, df2. auto.
Defined.

(** ** A frame without prices *)

Lemma features_item_raise parse h d name src df :
  frame_at h src df ->
  get_col "Close" df = None ->
  features_item parse d (name, src) h = Raise (KeyError "Close").
Proof.
  intros Hf Hc. unfold features_item.
  rewrite (bind_ok _ (run_copy _ _ _ Hf)).
  unfold bind at 1. unfold df_getitem, bind at 1.
  rewrite (run_load_frame _ _ _ (nth_error_last h (OFrame df))).
  now rewrite Hc.
Qed.

Lemma for_each_features_raise parse items : forall h0 acc fs,
  (forall k b, In (k, b) items -> exists f, frame_at h0 b f) ->
  (exists k b f, In (k, b) items /\ frame_at h0 b f /\
                 get_col "Close" f = None) ->
  for_each items (features_item parse (length h0)) (h0 ++ ODict acc :: fs)
  = Raise (KeyError "Close").
Proof.
  induction items as [|[name a] t IH]; intros h0 acc fs Hfr (k & b & f & Hin & Hf & Hc).
  - destruct Hin.
  - destruct (Hfr name a (or_introl eq_refl)) as (df & Hdf).
    assert (Hdf' : frame_at (h0 ++ ODict acc :: fs) a df).
    { unfold frame_at in *. rewrite nth_error_app1; auto.
      apply nth_error_Some. congruence. }
    cbn [for_each].
    destruct (get_col "Close" df) as [close|] eqn:Ec.
    + assert (Hd : dict_at (h0 ++ ODict acc :: fs) (length h0) acc)
        by apply nth_error_middle.
      rewrite (bind_ok _ (features_item_run parse _ _ name _ _ _ _ Hdf' Ec Hd)).
      rewrite update_middle, <- app_assoc. cbn [app].
      apply IH.
      * intros k' b' Hin'. apply (Hfr k' b'). now right.
      * destruct Hin as [[= -> ->]|Hin].
        -- unfold frame_at in *. rewrite Hdf in Hf. injection Hf as <-.
           congruence.
        -- exists k, b, f. auto.
    + unfold bind.
      now rewrite (features_item_raise parse _ _ name _ _ Hdf' Ec).
Qed.

(** X11.  A dictionary in which some frame has no "Close" column makes
    [compute_features] raise [KeyError: 'Close']; no dictionary is
    returned, even when other frames of the dictionary have prices. *)
Theorem missing_close_raises_key_error :
  forall parse h data items name a df,
    frames_dict h data items ->
    In (name, a) items ->
    frame_at h a df ->
    get_col "Close" df = None ->
    compute_features parse data h = Raise (KeyError "Close").
Proof.
  intros parse h data items name a df (Hd & Hnd & Hfr) Hin Hf Hc.
  unfold compute_features.
  assert (Ha : dict_new h = Ok (length h, h ++ [ODict []])) by reflexivity.
  rewrite (bind_ok _ Ha).
  assert (Hi : dict_items data (h ++ [ODict []]) = Ok (items, h ++ [ODict []])).
  { apply run_load_dict. unfold dict_at in *. rewrite nth_error_app1; auto.
    apply nth_error_Some. congruence. }
  rewrite (bind_ok _ Hi). unfold bind.
  rewrite (for_each_features_raise parse items h [] []); auto.
  exists name, a, df. auto.
Qed.

Lemma missing_close_raises_key_error_witness :
  compute_features (fun _ => NaN) 2
    [ OFrame example_frame; OFrame (mkFrame [Some (date 2020 1 2)] []);
      ODict [("SP500", 0%nat); ("EMPTY", 1%nat)] ]
  = Raise (KeyError "Close").
Proof.
  apply (missing_close_raises_key_error (fun _ => NaN) _ 2
           [("SP500", 0%nat); ("EMPTY", 1%nat)] "EMPTY" 1
           (mkFrame [Some (date 2020 1 2)] [])).
  - unfold frames_dict, dict_at, frame_at. repeat split.
    + repeat constructor; simpl; intuition discriminate.
    + intros k b [[= <- <-]|[[= <- <-]|[]]]; eexists; reflexivity.
  - simpl. tauto.
  - reflexivity.
  - reflexivity.
Defined.

(** ** The peak never falls *)

(** X12.  Over the rows that have a price the peak never falls and is
    never under the price: for rows [i <= j] with prices that are not
    missing, [price[i] <= peak[i] <= peak[j]]. *)
Theorem peak_is_monotone :
  forall parse h data name df i j p q,
    prices_input h data name df ->
    (i <= j)%nat ->
    nth_error (prices_of parse df) i = Some p -> isna p = false ->
    nth_error (prices_of parse df) j = Some q -> isna q = false ->
    exists df' peak m n,
      returns (compute_features parse data) h name df' /\
      fcol "peak" df' = Some peak /\
      nth_error peak i = Some m /\ nth_error peak j = Some n /\
      fle p m /\ fle m n.
Proof.
  intros parse h data name df i j p q Hin Hij Hp Np Hq Nq.
  destruct (nth_error_cummax (prices_of parse df) i p Hp) as (m & Em & _ & Mi).
  destruct (nth_error_cummax (prices_of parse df) j q Hq) as (n & En & _ & Mj).
  destruct (Mi Np) as [(k & Hk & Ek & Nk) Ui].
  destruct (Mj Nq) as [_ Uj].
  exists (featured parse df), (cummax (prices_of parse df)), m, n.
  split; [now apply compute_features_returns|].
  split; [apply featured_peak|].
  split; [exact Em|]. split; [exact En|]. split.
  - exact (Ui i p (le_n i) Hp Np).
  - apply (Uj k m); auto. lia.
Qed.

Lemma peak_is_monotone_witness :
  exists df' peak m n,
    returns (compute_features (fun _ => NaN) 1) example_heap "SP500" df' /\
    fcol "peak" df' = Some peak /\
    nth_error peak 1 = Some m /\ nth_error peak 5 = Some n /\
    fle (Fin 105) m /\ fle m n.
Proof.
  exact (peak_is_monotone (fun _ => NaN) example_heap 1 "SP500" example_frame
           1 5 (Fin 105) (Fin 90) example_prices_input
           (le_S _ _ (le_S _ _ (le_S _ _ (le_S _ _ (le_n 1)))))
           eq_refl eq_refl eq_refl eq_refl).
Defined.

(** ** Drawdown of positive prices *)



(** ** Log returns add up *)





(** ** Volatility of short and of steady series *)










(** X16.  A series of at most 30 rows has no rolling volatility: the
    first log return is missing, so no window of 30 returns is complete
    and every cell of [vol_30d] is missing. *)
Theorem short_series_no_volatility :
  forall parse h data name df,
    prices_input h data name df ->
    (length (prices_of parse df) <= 30)%nat ->
    exists df' vol,
      returns (compute_features parse data) h name df' /\
      fcol "vol_30d" df' = Some vol /\
      length vol = length (prices_of parse df) /\
      forall i v, nth_error vol i = Some v -> v = NaN.
Proof.
  intros parse h data name df Hin Hlen.
  set (lr := diff (map np_log (prices_of parse df))).
  assert (Ll : length lr = length (prices_of parse df)).
  { unfold lr. now rewrite length_diff, length_map. }
  exists (featured parse df), (rolling_std 30 lr).
  split; [now apply compute_features_returns|].
  split; [apply featured_vol|].
  split; [now rewrite length_rolling_std|].
  intros i v E.
  assert (Hi : (i < length lr)%nat).
  { rewrite <- (length_rolling_std 30 lr). apply nth_error_Some. congruence. }
  rewrite nth_error_rolling_std in E by exact Hi. injection E as <-.
  apply (roll_std_at_gap 30 lr i 0 NaN); try lia; try discriminate.
  apply nth_error_diff_0. unfold lr in Hi. rewrite length_diff in Hi.
  destruct (map np_log (prices_of parse df)); [simpl in Hi; lia|discriminate].
Qed.

Lemma short_series_no_volatility_witness :
  exists df' vol,
    returns (compute_features (fun _ => NaN) 1) example_heap "SP500" df' /\
    fcol "vol_30d" df' = Some vol /\
    length vol = 6%nat /\
    forall i v, nth_error vol i = Some v -> v = NaN.
Proof.
  assert (L : (length (prices_of (fun _ => NaN) example_frame) <= 30)%nat)
    by (simpl; lia).
  exact (short_series_no_volatility (fun _ => NaN) example_heap 1 "SP500"
           example_frame example_prices_input L).
Defined.

(** ** Prices in another unit *)







(* ================================================================== *)
(** * Further properties of the analysis *)

(** ** The order of the groups *)

Lemma ascii_compare_lt_trans a b c :
  Ascii.compare a b = Lt -> Ascii.compare b c = Lt -> Ascii.compare a c = Lt.
Proof.
  unfold Ascii.compare. rewrite !N.compare_lt_iff. apply N.lt_trans.
Qed.

Lemma string_compare_lt_trans s1 : forall s2 s3,
  String.compare s1 s2 = Lt -> String.compare s2 s3 = Lt ->
  String.compare s1 s3 = Lt.
Proof.
  induction s1 as [|a s1 IH]; intros [|b s2] [|c s3]; simpl;
    try discriminate; auto.
  destruct (Ascii.compare a b) eqn:Eab; try discriminate;
    destruct (Ascii.compare b c) eqn:Ebc; try discriminate; intros H1 H2.
  - apply Ascii.compare_eq_iff in Eab, Ebc. subst.
    assert (E : Ascii.compare c c = Eq).
    { unfold Ascii.compare. apply N.compare_refl. }
    rewrite E. now apply (IH s2).
  - apply Ascii.compare_eq_iff in Eab. subst. now rewrite Ebc.
  - apply Ascii.compare_eq_iff in Ebc. subst. now rewrite Eab.
  - now rewrite (ascii_compare_lt_trans a b c Eab Ebc).
Qed.

Lemma ltb_trans s1 s2 s3 :
  String.ltb s1 s2 = true -> String.ltb s2 s3 = true ->
  String.ltb s1 s3 = true.
Proof.
  unfold String.ltb.
  destruct (String.compare s1 s2) eqn:E1; try discriminate.
  destruct (String.compare s2 s3) eqn:E2; try discriminate.
  now rewrite (string_compare_lt_trans s1 s2 s3 E1 E2).
Qed.

Lemma ltb_irrefl s : String.ltb s s = false.
Proof.
  unfold String.ltb.
  destruct (String.compare s s) eqn:E; auto.
  pose proof (String.compare_antisym s s) as A. rewrite E in A. discriminate.
Qed.

Lemma ltb_connected s1 s2 :
  String.eqb s1 s2 = false -> String.ltb s1 s2 = false ->
  String.ltb s2 s1 = true.
Proof.
  unfold String.ltb. intros Hn.
  rewrite (String.compare_antisym s1 s2).
  destruct (String.compare s2 s1) eqn:E; simpl; try discriminate; auto.
  apply String.compare_eq_iff in E. subst.
  rewrite String.eqb_refl in Hn. discriminate.
Qed.

Lemma in_insert_key k x ks : In k (insert_key x ks) <-> k = x \/ In k ks.
Proof.
  induction ks as [|k' t IH]; simpl; [intuition|].
  destruct (String.eqb x k') eqn:E.
  - apply String.eqb_eq in E. subst. simpl. intuition.
  - destruct (String.ltb x k'); simpl; [intuition|].
    rewrite IH. intuition.
Qed.

Lemma increasing_insert_key x ks : increasing ks -> increasing (insert_key x ks).
Proof.
  induction ks as [|k' t IH]; simpl.
  - intros _. split; [constructor|exact I].
  - intros [Hall Hinc].
    destruct (String.eqb x k') eqn:E; [simpl; auto|].
    destruct (String.ltb x k') eqn:L.
    + simpl. split; [|auto]. constructor; [exact L|].
      rewrite Forall_forall in *. intros y Hy.
      exact (ltb_trans _ _ _ L (Hall y Hy)).
    + simpl. split; [|auto].
      rewrite Forall_forall in *. intros y Hy.
      apply in_insert_key in Hy as [->|Hy]; [|auto].
      now apply ltb_connected.
Qed.

Lemma increasing_group_keys col : increasing (group_keys col).
Proof.
  unfold group_keys. induction col as [|v t IH]; simpl; [exact I|].
  destruct v; auto. now apply increasing_insert_key.
Qed.

Lemma in_group_keys k col : In k (group_keys col) <-> In (VStr k) col.
Proof.
  unfold group_keys. induction col as [|v t IH]; simpl; [tauto|].
  destruct v; try (rewrite IH; intuition discriminate).
  rewrite in_insert_key, IH. intuition congruence.
Qed.

Lemma increasing_NoDup ks : increasing ks -> NoDup ks.
Proof.
  induction ks as [|k t IH]; simpl; [constructor|].
  intros [Hall Hinc]. constructor; [|auto].
  intros Hin. rewrite Forall_forall in Hall.
  specialize (Hall k Hin). rewrite ltb_irrefl in Hall. discriminate.
Qed.

Lemma regime_summary_keys df s regime :
  regime_summary df = Ok s ->
  get_col "regime" df = Some regime ->
  map sr_regime s = group_keys regime.
Proof.
  unfold regime_summary, frame_col, selected_col. intros H E. rewrite E in H. simpl in H.
  destruct (get_col "log_return" df); simpl in H; [|discriminate].
  destruct (get_col "vol_30d" df); simpl in H; [|discriminate].
  destruct (get_col "drawdown" df); simpl in H; [|discriminate].
  destruct (floats_of c); simpl in H; [|discriminate].
  destruct (floats_of c0); simpl in H; [|discriminate].
  destruct (floats_of c1); simpl in H; [|discriminate].
  injection H as <-. rewrite map_map. simpl. apply map_id.
Qed.

(** X18.  A regime summary has one row for each regime that occurs in the
    "regime" column and no other row; the rows come in strictly
    increasing order of the regime, so no regime has two rows. *)
Theorem summary_rows_are_the_regimes :
  forall df s regime,
    regime_summary df = Ok s ->
    get_col "regime" df = Some regime ->
    (forall k, In k (map sr_regime s) <-> In (VStr k) regime) /\
    increasing (map sr_regime s) /\
    NoDup (map sr_regime s).
Proof.
  intros df s regime H E.
  rewrite (regime_summary_keys df s regime H E).
  split; [intros k; apply in_group_keys|].
  split; [apply increasing_group_keys|].
  apply increasing_NoDup, increasing_group_keys.
Qed.

Lemma summary_rows_are_the_regimes_witness :
  exists s,
    regime_summary (labelled 6 6 CRISES (featured (fun _ => NaN) example_frame))
    = Ok s /\
    map sr_regime s = ["crisis"; "normal"; "post_crisis"; "pre_crisis"] /\
    NoDup (map sr_regime s).
Proof.
  set (df := labelled 6 6 CRISES (featured (fun _ => NaN) example_frame)).
  assert (E : get_col "regime" df
              = Some [ VStr "crisis"; VStr "crisis"; VStr "post_crisis";
                       VStr "normal"; VStr "pre_crisis"; VStr "normal" ])
    by reflexivity.
  assert (H : exists s, regime_summary df = Ok s).
  { eexists. eapply (regime_summary_ok df); try exact E;
      try (unfold df; rewrite labelled_other by reflexivity;
           unfold featured; cols);
      apply floats_of_float_col. }
  destruct H as (s & H). exists s. split; [exact H|].
  destruct (summary_rows_are_the_regimes df s _ H E) as (_ & _ & N).
  split; [|exact N].
  rewrite (regime_summary_keys df s _ H E). reflexivity.
Defined.

(** ** The statistics of a group *)















(* ================================================================== *)
(** * The stages in sequence *)

Lemma labelled_featured_summary parse pre post crises df :
  exists s, regime_summary (labelled pre post crises (featured parse df)) = Ok s.
Proof.
  destruct (labelled_rows pre post crises (featured parse df)) as (E & _).
  destruct (featured_get "log_return" parse df eq_refl) as (x1 & G1 & _).
  destruct (featured_get "vol_30d" parse df eq_refl) as (x2 & G2 & _).
  destruct (featured_get "drawdown" parse df eq_refl) as (x3 & G3 & _).
  eexists.
  eapply (regime_summary_ok _ _ _ _ _ x1 x2 x3); try exact E;
    try (rewrite labelled_other by reflexivity; eassumption);
    apply floats_of_float_col.
Qed.

Lemma labelled_featured_close parse pre post crises df :
  get_col "Close" (labelled pre post crises (featured parse df))
  = Some (float_col (prices_of parse df)).
Proof.
  rewrite labelled_other by reflexivity. apply featured_get_close.
Qed.

(** X20.  The stages fit together: on a dictionary of frames with a
    "Close" column, steps 3 and 4 of [main] return a dictionary that
    binds every key of the input to a new frame.  That frame has the
    index of the input frame, the feature columns [compute_features]
    gives for it, and the regime columns; it has every column
    [regime_summary] and the plots of step 5 read, and [regime_summary]
    computes its table from it, with regimes among the four labels.  The
    objects that were in the heap before the call are unchanged. *)
Theorem features_then_labels_feed_analysis :
  forall parse h raw_data name df,
    prices_input h raw_data name df ->
    exists df' df'' s,
      returns (compute_features parse raw_data) h name df' /\
      returns (features_then_labels parse raw_data) h name df'' /\
      df_index df'' = df_index df /\
      (forall c, label_column c = false -> get_col c df'' = get_col c df') /\
      (forall c, label_column c = true ->
         exists col, get_col c df'' = Some col /\
                     length col = length (df_index df)) /\
      regime_summary df'' = Ok s /\
      (forall row, In row s -> In (sr_regime row) regime_labels) /\
      (exists close, get_col "Close" df'' = Some close).
Proof.
  intros parse h raw name df Hin.
  destruct (prices_input_dict h raw name df Hin) as (items & a & PD & L & Hf).
  pose proof PD as (Hd & Hnd & Hfr).
  set (F1 := featured parse). set (F2 := labelled 6 6 CRISES).
  set (h1 := heap_after F1 h items).
  set (items1 := combine (map fst items) (seq (S (length h)) (length items))).
  destruct (heap_after_dict F1 h raw items (prices_dict_frames _ _ _ PD))
    as (FD1 & _ & A1 & _).
  fold h1 items1 in FD1, A1. pose proof FD1 as (Hd1 & Hnd1 & Hfr1).
  set (h2 := heap_after F2 h1 items1).
  destruct (heap_after_entry F1 h items name a df L Hf)
    as (a1 & (its & Dits & L1 & Hf1) & _).
  fold h1 in Dits, Hf1. unfold dict_at in Dits, Hd1.
  rewrite Hd1 in Dits. injection Dits as <-.
  destruct (heap_after_entry F2 h1 items1 name a1 (F1 df) L1 Hf1)
    as (a2 & He2 & Hle2).
  fold h2 in He2.
  destruct (labelled_featured_summary parse 6 6 CRISES df) as (s & Hs).
  exists (F1 df), (F2 (F1 df)), s.
  split; [now apply compute_features_returns|]. split.
  - exists (length h1), h2, a2. split.
    { unfold features_then_labels.
      rewrite (bind_ok _ (compute_features_run parse h raw items Hd Hnd Hfr)).
      unfold label_crisis_periods.
      now apply label_crisis_periods_run. }
    split; [exact He2|].
    assert (Lh : (length h <= length h1)%nat).
    { unfold h1, heap_after. rewrite length_app. lia. }
    split.
    { intros x o E. apply preserved_heap_after.
      now apply (preserved_heap_after F1 h items). }
    split; lia.
  - split; [unfold F2; now rewrite labelled_index|].
    split; [intros c K; unfold F2; now apply labelled_other|].
    split.
    { intros c K.
      destruct (labelled_rows 6 6 CRISES (F1 df)) as (E1 & E2 & E3 & E4).
      pose proof (labelled_high_risk 6 6 CRISES (F1 df)) as E5.
      rewrite labelled_index in E1, E2, E3, E4.
      change (df_index (F1 df)) with (df_index df) in *.
      destruct (label_column_cases c K) as [->|[->|[->|[->| ->]]]];
        eexists; (split; [eassumption|apply length_map]). }
    split; [exact Hs|]. split.
    + intros row Hrow.
      destruct (labelled_rows 6 6 CRISES (F1 df)) as (E1 & _).
      pose proof (regime_summary_keys _ _ _ Hs E1) as K.
      assert (Hk : In (sr_regime row) (map sr_regime s)) by now apply in_map.
      rewrite K in Hk.
      apply in_group_keys in Hk.
      apply in_map_iff in Hk as (d & Ed & _).
      destruct (label_row_cases 6 6 CRISES d)
        as [[_ En]|(c & _ & _ & Er & _)].
      * rewrite En in Ed. injection Ed as <-. simpl. tauto.
      * rewrite Er in Ed. injection Ed as <-.
        now destruct (written_regime_label 6 6 c d).
    + eexists. apply labelled_featured_close.
Qed.

Lemma features_then_labels_feed_analysis_witness :
  exists df'' s,
    returns (features_then_labels (fun _ => NaN) 1) example_heap "SP500" df'' /\
    df_index df'' = df_index example_frame /\
    get_col "Close" df''
    = Some (float_col [Fin 100; Fin 105; NaN; Fin 0; Fin 110; Fin 90]) /\
    regime_summary df'' = Ok s.
Proof.
  destruct (features_then_labels_feed_analysis (fun _ => NaN) example_heap 1
              "SP500" example_frame example_prices_input)
    as (df' & df'' & s & R1 & R2 & I & O & _ & S & _).
  exists df'', s. split; [exact R2|]. split; [exact I|].
  split; [|exact S].
  rewrite (O "Close" eq_refl).
  destruct R1 as (o1 & h1 & a1 & E1 & (it1 & D1 & L1 & F1) & _).
  rewrite (compute_features_run (fun _ => NaN) example_heap 1
             [("SP500", 0%nat)]) in E1.
  - injection E1 as <- <-. unfold dict_at in D1. simpl in D1.
    injection D1 as <-. simpl in L1. injection L1 as <-.
    unfold frame_at in F1. simpl in F1. injection F1 as <-.
    apply featured_get_close.
  - reflexivity.
  - repeat constructor. simpl. tauto.
  - intros k b [[= <- <-]|[]]. exists example_frame. eexists.
    split; reflexivity.
Defined.
